(** * Client-side synchronisation and control layer of the ABM dashboards

    A shallow embedding of the TypeScript sources of the two front ends
    (world-viewer and control-tower): the zustand stores, the WebSocket
    hooks, the control hook, the time bar's jump handler and the wheel
    zoom of the world viewer, followed by the properties proved of them.

    Conventions.
    - A JavaScript [number] that is an identifier, a timestamp or a
      logical time is a [Z]; NaN is the missing case of an [option].
      Camera coordinates and KPI values are exact rationals ([Q]).
    - [undefined] is the [None] of a property lookup.
    - A store action [set(partial)] is a function from state to state that
      rebuilds the record with the fields of [partial] replaced.
    - Timers, sockets and the React commit are explicit in the state of the
      hooks; the environment (network, clock) is the sequence of events fed
      to the step function. *)

From Stdlib Require Import ZArith QArith Qminmax Qabs String Ascii List Lia Lqa.
From stdpp Require Import base option list strings gmap.

Set Warnings "-register-all".
Local Open Scope Z_scope.

(* ===================================================================== *)
(** ** JavaScript values and the library functions the sources use        *)
(* ===================================================================== *)

Module Js.

(** A JSON value as [JSON.parse] produces it. *)
Inductive value :=
| VNull
| VBool (b : bool)
| VNum (n : Z)
| VStr (s : string)
| VArr (items : list value)
| VObj (fields : gmap string value).

(** An object with an index signature, [{ [key: string]: any }]. *)
Abbreviation obj := (gmap string value).

(** [ToBoolean]: what [if (v)] and [v || w] test. *)
Definition truthy (v : option value) : bool :=
  match v with
  | None => false
  | Some VNull => false
  | Some (VBool b) => b
  | Some (VNum n) => negb (n =? 0)
  | Some (VStr s) => negb (String.eqb s "")
  | Some (VArr _) => true
  | Some (VObj _) => true
  end.

(** [a === b].  Arrays and objects compare by identity; two of them that
    were read from different frames are never the same object. *)
Definition strict_eq (a b : option value) : bool :=
  match a, b with
  | None, None => true
  | Some VNull, Some VNull => true
  | Some (VBool x), Some (VBool y) => Bool.eqb x y
  | Some (VNum x), Some (VNum y) => x =? y
  | Some (VStr x), Some (VStr y) => String.eqb x y
  | _, _ => false
  end.

(** [s || fallback] on strings: the empty string is falsy. *)
Definition str_or (s : option string) (fallback : string) : string :=
  match s with
  | Some m => if String.eqb m "" then fallback else m
  | None => fallback
  end.

(** [arr.slice(start)]: a negative [start] counts from the end, and both
    ends are clamped to the array. *)
Definition slice {A} (start : Z) (arr : list A) : list A :=
  let len := Z.of_nat (length arr) in
  let k := if start <? 0 then Z.max (len + start) 0 else Z.min start len in
  drop (Z.to_nat k) arr.

(** [arr.find(p)]: the first element that satisfies [p], or [undefined]. *)
Fixpoint find {A} (p : A -> bool) (arr : list A) : option A :=
  match arr with
  | [] => None
  | a :: rest => if p a then Some a else find p rest
  end.

(** *** [parseInt(s)] with no radix argument *)

Definition is_whitespace (c : ascii) : bool :=
  let n := nat_of_ascii c in
  ((9 <=? n) && (n <=? 13) || (n =? 32))%nat.

Fixpoint trim_start (s : string) : string :=
  match s with
  | String c rest => if is_whitespace c then trim_start rest else s
  | EmptyString => s
  end.

(** The value of [c] as a digit in base 36, when it is one. *)
Definition digit_of (c : ascii) : option Z :=
  let n := Z.of_nat (nat_of_ascii c) in
  if (48 <=? n) && (n <=? 57) then Some (n - 48)
  else if (97 <=? n) && (n <=? 122) then Some (n - 87)
  else if (65 <=? n) && (n <=? 90) then Some (n - 55)
  else None.

(** The longest prefix of digits of [s] in base [radix], as a number;
    [acc] is the value read so far ([None]: no digit yet). *)
Fixpoint digits (radix : Z) (s : string) (acc : option Z) : option Z :=
  match s with
  | String c rest =>
      match digit_of c with
      | Some d =>
          if d <? radix
          then digits radix rest (Some (default 0 acc * radix + d))
          else acc
      | None => acc
      end
  | EmptyString => acc
  end.

(** The sign, then the text after it. *)
Definition strip_sign (s : string) : bool * string :=
  match s with
  | String "-" rest => (true, rest)
  | String "+" rest => (false, rest)
  | _ => (false, s)
  end.

(** The radix a [0x] or [0X] prefix selects, then the text after it. *)
Definition strip_radix (s : string) : Z * string :=
  match s with
  | String "0" (String "x" rest) => (16, rest)
  | String "0" (String "X" rest) => (16, rest)
  | _ => (10, s)
  end.

(** [parseInt(s)]; [None] is NaN. *)
Definition parseInt (s : string) : option Z :=
  let '(negative, s1) := strip_sign (trim_start s) in
  let '(radix, s2) := strip_radix s1 in
  match digits radix s2 None with
  | Some n => Some (if negative then - n else n)
  | None => None
  end.

End Js.

(* ===================================================================== *)
(** ** control-tower: [dashboardStore.ts]                                 *)
(* ===================================================================== *)

Module DashboardStore.
Import Js.

Record KPIs := {
  gdp : Q;
  unemployment : Q;
  inflation : Q;
  policy_rate : Q;
  credit_growth : option Q;
  default_rate : option Q;
  total_agents : Z
}.

Record MetricsData := {
  timestamp : Z;
  kpis : KPIs;
  regional_data : option value;
  sectoral_data : option value
}.

Inductive RunState := stopped | running | paused | stepping | rewinding.

Record SimulationStatus := {
  state : RunState;
  current_time : Z;
  speed : Q;
  status_total_agents : Z;
  elapsed_real_time : Q;
  steps_per_second : Q;
  memory_usage_mb : Q
}.

(** The fields are read off a frame's [data: any], so each is a value or
    [undefined]. *)
Record DashboardEvent := {
  event_timestamp : option value;
  event_type : option value;
  actor_id : option value;
  payload : option value;
  metadata : option value
}.

Inductive ChartTimeRange := range_1h | range_6h | range_24h | range_7d.

Record DashboardState := {
  isConnected : bool;
  connectionError : option string;
  lastUpdateTime : option Z;
  simulationStatus : option SimulationStatus;
  currentMetrics : option MetricsData;
  metricsHistory : list MetricsData;
  events : list DashboardEvent;
  scenarios : list value;
  snapshots : list value;
  selectedScenario : option string;
  autoRefresh : bool;
  refreshInterval : Z;
  chartTimeRange : ChartTimeRange;
  selectedMetrics : list string
}.

Definition initialState : DashboardState := {|
  isConnected := false;
  connectionError := None;
  lastUpdateTime := None;
  simulationStatus := None;
  currentMetrics := None;
  metricsHistory := [];
  events := [];
  scenarios := [];
  snapshots := [];
  selectedScenario := None;
  autoRefresh := true;
  refreshInterval := 2000;
  chartTimeRange := range_1h;
  selectedMetrics := ["gdp"; "unemployment"; "inflation"; "policy_rate"]
|}.

Definition setConnected (connected : bool) (s : DashboardState) : DashboardState := {|
  isConnected := connected;
  connectionError := connectionError s;
  lastUpdateTime := lastUpdateTime s;
  simulationStatus := simulationStatus s;
  currentMetrics := currentMetrics s;
  metricsHistory := metricsHistory s;
  events := events s;
  scenarios := scenarios s;
  snapshots := snapshots s;
  selectedScenario := selectedScenario s;
  autoRefresh := autoRefresh s;
  refreshInterval := refreshInterval s;
  chartTimeRange := chartTimeRange s;
  selectedMetrics := selectedMetrics s
|}.

Definition setConnectionError (error : option string) (s : DashboardState) : DashboardState := {|
  isConnected := isConnected s;
  connectionError := error;
  lastUpdateTime := lastUpdateTime s;
  simulationStatus := simulationStatus s;
  currentMetrics := currentMetrics s;
  metricsHistory := metricsHistory s;
  events := events s;
  scenarios := scenarios s;
  snapshots := snapshots s;
  selectedScenario := selectedScenario s;
  autoRefresh := autoRefresh s;
  refreshInterval := refreshInterval s;
  chartTimeRange := chartTimeRange s;
  selectedMetrics := selectedMetrics s
|}.

(** [now] is the value [Date.now()] returns during the call. *)
Definition updateSimulationStatus (now : Z) (status : SimulationStatus)
    (s : DashboardState) : DashboardState := {|
  isConnected := isConnected s;
  connectionError := connectionError s;
  lastUpdateTime := Some now;
  simulationStatus := Some status;
  currentMetrics := currentMetrics s;
  metricsHistory := metricsHistory s;
  events := events s;
  scenarios := scenarios s;
  snapshots := snapshots s;
  selectedScenario := selectedScenario s;
  autoRefresh := autoRefresh s;
  refreshInterval := refreshInterval s;
  chartTimeRange := chartTimeRange s;
  selectedMetrics := selectedMetrics s
|}.

(** [metricsHistory: [...state.metricsHistory.slice(-99), metrics]]. *)
Definition updateMetrics (now : Z) (metrics : MetricsData)
    (s : DashboardState) : DashboardState := {|
  isConnected := isConnected s;
  connectionError := connectionError s;
  lastUpdateTime := Some now;
  simulationStatus := simulationStatus s;
  currentMetrics := Some metrics;
  metricsHistory := slice (-99) (metricsHistory s) ++ [metrics];
  events := events s;
  scenarios := scenarios s;
  snapshots := snapshots s;
  selectedScenario := selectedScenario s;
  autoRefresh := autoRefresh s;
  refreshInterval := refreshInterval s;
  chartTimeRange := chartTimeRange s;
  selectedMetrics := selectedMetrics s
|}.

(** [events: [...state.events.slice(-199), event]]. *)
Definition addEvent (event : DashboardEvent) (s : DashboardState) : DashboardState := {|
  isConnected := isConnected s;
  connectionError := connectionError s;
  lastUpdateTime := lastUpdateTime s;
  simulationStatus := simulationStatus s;
  currentMetrics := currentMetrics s;
  metricsHistory := metricsHistory s;
  events := slice (-199) (events s) ++ [event];
  scenarios := scenarios s;
  snapshots := snapshots s;
  selectedScenario := selectedScenario s;
  autoRefresh := autoRefresh s;
  refreshInterval := refreshInterval s;
  chartTimeRange := chartTimeRange s;
  selectedMetrics := selectedMetrics s
|}.

Definition clearEvents (s : DashboardState) : DashboardState := {|
  isConnected := isConnected s;
  connectionError := connectionError s;
  lastUpdateTime := lastUpdateTime s;
  simulationStatus := simulationStatus s;
  currentMetrics := currentMetrics s;
  metricsHistory := metricsHistory s;
  events := [];
  scenarios := scenarios s;
  snapshots := snapshots s;
  selectedScenario := selectedScenario s;
  autoRefresh := autoRefresh s;
  refreshInterval := refreshInterval s;
  chartTimeRange := chartTimeRange s;
  selectedMetrics := selectedMetrics s
|}.

Definition reset (_ : DashboardState) : DashboardState := initialState.

(** The store after the samples of [arrivals] were pushed in that order,
    each paired with the clock reading of its call. *)
Definition pushMetrics (arrivals : list (Z * MetricsData)) (s : DashboardState)
    : DashboardState :=
  fold_left (fun st a => updateMetrics (fst a) (snd a) st) arrivals s.

End DashboardStore.

(* ===================================================================== *)
(** ** world-viewer: [simulationStore.ts]                                 *)
(* ===================================================================== *)

Module SimulationStore.
Import Js.

(** [interface Agent]: the named fields and the index signature together;
    a delta carries only some of the keys. *)
Abbreviation Agent := (gmap string value).

Record KPIs := {
  gdp : Q;
  unemployment : Q;
  inflation : Q;
  policy_rate : Q;
  credit_growth : option Q;
  default_rate : option Q;
  total_agents : Z
}.

Record MetricsData := {
  timestamp : Z;
  kpis : KPIs
}.

Inductive RunState := stopped | running | paused | stepping | rewinding.

Record SimulationStatus := {
  state : RunState;
  current_time : Z;
  speed : Q;
  status_total_agents : Z;
  steps_per_second : Q
}.

Record ShowLayers := {
  layer_agents : bool;
  layer_unemployment : bool;
  layer_population : bool;
  layer_firms : bool;
  layer_banks : bool
}.

(** [keyof SimulationState['showLayers']]. *)
Inductive Layer := agents_key | unemployment_key | population_key | firms_key | banks_key.

Record Camera := {
  x : Q;
  y : Q;
  zoom : Q
}.

(** [Partial<SimulationState['camera']>]. *)
Record CameraPatch := {
  patch_x : option Q;
  patch_y : option Q;
  patch_zoom : option Q
}.

Record SimulationState := {
  isConnected : bool;
  connectionError : option string;
  simulationStatus : option SimulationStatus;
  agents : list Agent;
  metrics : option MetricsData;
  events : list obj;
  selectedAgent : option Agent;
  showLayers : ShowLayers;
  camera : Camera
}.

Definition initialState : SimulationState := {|
  isConnected := false;
  connectionError := None;
  simulationStatus := None;
  agents := [];
  metrics := None;
  events := [];
  selectedAgent := None;
  showLayers := {|
    layer_agents := true;
    layer_unemployment := false;
    layer_population := true;
    layer_firms := true;
    layer_banks := true
  |};
  camera := {| x := 0; y := 0; zoom := 1 |}
|}.

Definition setConnected (connected : bool) (s : SimulationState) : SimulationState := {|
  isConnected := connected;
  connectionError := connectionError s;
  simulationStatus := simulationStatus s;
  agents := agents s;
  metrics := metrics s;
  events := events s;
  selectedAgent := selectedAgent s;
  showLayers := showLayers s;
  camera := camera s
|}.

Definition setConnectionError (error : option string) (s : SimulationState) : SimulationState := {|
  isConnected := isConnected s;
  connectionError := error;
  simulationStatus := simulationStatus s;
  agents := agents s;
  metrics := metrics s;
  events := events s;
  selectedAgent := selectedAgent s;
  showLayers := showLayers s;
  camera := camera s
|}.

Definition updateSimulationStatus (status : option SimulationStatus)
    (s : SimulationState) : SimulationState := {|
  isConnected := isConnected s;
  connectionError := connectionError s;
  simulationStatus := status;
  agents := agents s;
  metrics := metrics s;
  events := events s;
  selectedAgent := selectedAgent s;
  showLayers := showLayers s;
  camera := camera s
|}.

(** [set({ agents })]. *)
Definition setAgents (new_agents : list Agent) (s : SimulationState) : SimulationState := {|
  isConnected := isConnected s;
  connectionError := connectionError s;
  simulationStatus := simulationStatus s;
  agents := new_agents;
  metrics := metrics s;
  events := events s;
  selectedAgent := selectedAgent s;
  showLayers := showLayers s;
  camera := camera s
|}.

(** [selectAgent]: [set({ selectedAgent: agent })]. *)
Definition selectAgent (agent : option Agent) (s : SimulationState) : SimulationState := {|
  isConnected := isConnected s;
  connectionError := connectionError s;
  simulationStatus := simulationStatus s;
  agents := agents s;
  metrics := metrics s;
  events := events s;
  selectedAgent := agent;
  showLayers := showLayers s;
  camera := camera s
|}.

(** [a.agent_id === selectedAgent.agent_id], the test of the [find] in
    [updateAgents]. *)
Definition sameId (a selected : Agent) : bool :=
  strict_eq (a !! "agent_id") (selected !! "agent_id").

(** [updateAgents]: the list replaces the registry; then, when an agent is
    selected and the list holds one with its [agent_id], the first such
    element becomes the selection. *)
Definition updateAgents (new_agents : list Agent) (s : SimulationState) : SimulationState :=
  let s1 := setAgents new_agents s in
  match selectedAgent s1 with
  | Some selected =>
      match find (fun a : Agent => sameId a selected) new_agents with
      | Some updatedAgent => selectAgent (Some updatedAgent) s1
      | None => s1
      end
  | None => s1
  end.

Definition updateMetrics (m : MetricsData) (s : SimulationState) : SimulationState := {|
  isConnected := isConnected s;
  connectionError := connectionError s;
  simulationStatus := simulationStatus s;
  agents := agents s;
  metrics := Some m;
  events := events s;
  selectedAgent := selectedAgent s;
  showLayers := showLayers s;
  camera := camera s
|}.

(** [events: [...state.events.slice(-999), event]]. *)
Definition addEvent (event : obj) (s : SimulationState) : SimulationState := {|
  isConnected := isConnected s;
  connectionError := connectionError s;
  simulationStatus := simulationStatus s;
  agents := agents s;
  metrics := metrics s;
  events := slice (-999) (events s) ++ [event];
  selectedAgent := selectedAgent s;
  showLayers := showLayers s;
  camera := camera s
|}.

(** [state.showLayers[layer]]. *)
Definition getLayer (layer : Layer) (l : ShowLayers) : bool :=
  match layer with
  | agents_key => layer_agents l
  | unemployment_key => layer_unemployment l
  | population_key => layer_population l
  | firms_key => layer_firms l
  | banks_key => layer_banks l
  end.

(** [{ ...showLayers, [layer]: v }]. *)
Definition setLayer (layer : Layer) (v : bool) (l : ShowLayers) : ShowLayers := {|
  layer_agents := match layer with agents_key => v | _ => layer_agents l end;
  layer_unemployment := match layer with unemployment_key => v | _ => layer_unemployment l end;
  layer_population := match layer with population_key => v | _ => layer_population l end;
  layer_firms := match layer with firms_key => v | _ => layer_firms l end;
  layer_banks := match layer with banks_key => v | _ => layer_banks l end
|}.

Definition toggleLayer (layer : Layer) (s : SimulationState) : SimulationState := {|
  isConnected := isConnected s;
  connectionError := connectionError s;
  simulationStatus := simulationStatus s;
  agents := agents s;
  metrics := metrics s;
  events := events s;
  selectedAgent := selectedAgent s;
  showLayers := setLayer layer (negb (getLayer layer (showLayers s))) (showLayers s);
  camera := camera s
|}.

(** [camera: { ...state.camera, ...camera }]. *)
Definition updateCamera (patch : CameraPatch) (s : SimulationState) : SimulationState := {|
  isConnected := isConnected s;
  connectionError := connectionError s;
  simulationStatus := simulationStatus s;
  agents := agents s;
  metrics := metrics s;
  events := events s;
  selectedAgent := selectedAgent s;
  showLayers := showLayers s;
  camera := {|
    x := default (x (camera s)) (patch_x patch);
    y := default (y (camera s)) (patch_y patch);
    zoom := default (zoom (camera s)) (patch_zoom patch)
  |}
|}.

Definition reset (_ : SimulationState) : SimulationState := initialState.

End SimulationStore.

(* ===================================================================== *)
(** ** world-viewer: [hooks/useSimulationControl.ts]                      *)
(* ===================================================================== *)

Module UseSimulationControl.
Import Js SimulationStore.

(** The control commands the hook returns, with their arguments. *)
Inductive Command :=
| Play (speed : option Q)
| Pause
| Step (steps : Z)
| SetSpeed (speed : Q)
| Jump (targetTime : Z)
| Rewind (targetTime : Z)
| Reset.

(** The path [simulationApi] posts to for each command's [mutationFn]. *)
Definition endpoint (c : Command) : string :=
  match c with
  | Play _ => "/control/play"
  | Pause => "/control/pause"
  | Step _ => "/control/step"
  | SetSpeed _ => "/control/speed"
  | Jump _ => "/control/jump"
  | Rewind _ => "/control/rewind"
  | Reset => "/control/reset"
  end.

(** The value an API call rejects with: an [Error], or an object without
    a [message]. *)
Record ApiError := {
  message : option string
}.

(** How the promise of [mutationFn] settles. *)
Inductive Outcome :=
| Resolved
| Rejected (error : ApiError).

(** The text after [error.message ||] in each mutation's [onError]. *)
Definition fallback (c : Command) : string :=
  match c with
  | Play _ => "播放失败"
  | Pause => "暂停失败"
  | Step _ => "步进失败"
  | SetSpeed _ => "设置速度失败"
  | Jump _ => "时间跳转失败"
  | Rewind _ => "倒带失败"
  | Reset => "重置失败"
  end.

(** What the hook acts on: the store and the query client, of which only
    the keys invalidated so far matter here. *)
Record Control := {
  store : SimulationState;
  invalidated : list string
}.

(** [queryClient.invalidateQueries({ queryKey: ['simulation-status'] })]. *)
Definition onSuccess (k : Control) : Control := {|
  store := store k;
  invalidated := invalidated k ++ ["simulation-status"]
|}.

(** [setConnectionError(error.message || fallback)]. *)
Definition onError (c : Command) (error : ApiError) (k : Control) : Control := {|
  store := setConnectionError (Some (str_or (message error) (fallback c))) (store k);
  invalidated := invalidated k
|}.

(** What a call hands back to its caller. *)
Inductive completion (A : Type) :=
| Returned (a : A)
| Thrown (error : ApiError).
Arguments Returned {A} a.
Arguments Thrown {A} error.

(** [mutation.mutateAsync(vars)]: runs the callback for the outcome, and
    rejects with the error of a rejected call. *)
Definition mutateAsync (c : Command) (o : Outcome) (k : Control) : Control * completion unit :=
  match o with
  | Resolved => (onSuccess k, Returned tt)
  | Rejected error => (onError c error k, Thrown error)
  end.

(** [mutation.mutate(vars)], as every command of the hook is written:
    [mutateAsync(vars).catch(noop)]. *)
Definition mutate (c : Command) (o : Outcome) (k : Control) : completion Control :=
  match mutateAsync c o k with
  | (k', _) => Returned k'
  end.

End UseSimulationControl.

(* ===================================================================== *)
(** ** world-viewer: [components/TimeBar.tsx]                             *)
(* ===================================================================== *)

Module TimeBar.
Import Js SimulationStore UseSimulationControl.

(** The component's two [useState] cells. *)
Record TimeBarState := {
  jumpTarget : string;
  showJumpInput : bool
}.

(** [simulationStatus?.current_time || 0]. *)
Definition currentTime (status : option SimulationStatus) : Z :=
  match status with
  | Some st => if current_time st =? 0 then 0 else current_time st
  | None => 0
  end.

(** [handleJump]: the new state of the component, and the command issued
    if any. *)
Definition handleJump (ui : TimeBarState) (status : option SimulationStatus)
    : TimeBarState * option Command :=
  match parseInt (jumpTarget ui) with
  | Some target =>
      if 0 <=? target
      then ({| jumpTarget := ""; showJumpInput := false |},
            Some (if target <? currentTime status then Rewind target else Jump target))
      else (ui, None)
  | None => (ui, None)
  end.

End TimeBar.

(* ===================================================================== *)
(** ** world-viewer: [components/WorldViewer.tsx], [setupCameraControls]  *)
(* ===================================================================== *)

Module WorldViewer.
Import Js SimulationStore.
Local Open Scope Q_scope.

(** The PIXI container the camera transform is applied to. *)
Record Container := {
  position_x : Q;
  position_y : Q;
  scale_x : Q
}.

Record Point := {
  px : Q;
  py : Q
}.

(** The store, the container, and the three locals of
    [setupCameraControls]. *)
Record Viewer := {
  store : SimulationState;
  worldContainer : Container;
  isDragging : bool;
  dragStart : Point;
  lastPosition : Point
}.

Inductive InputEvent :=
| MouseDown (clientX clientY : Q)
| MouseMove (clientX clientY : Q)
| MouseUp
| Wheel (deltaY : Q).

(** [e.deltaY > 0 ? 0.9 : 1.1]. *)
Definition zoomFactor (deltaY : Q) : Q :=
  if negb (Qle_bool deltaY 0) then 0.9 else 1.1.

(** [Math.max(0.1, Math.min(5, currentZoom * zoomFactor))]. *)
Definition newZoom (deltaY currentZoom : Q) : Q :=
  Qmax 0.1 (Qmin 5 (currentZoom * zoomFactor deltaY)).

(** The effect on [camera]: [position.set(camera.x, camera.y)] and
    [scale.set(camera.zoom)]. *)
Definition applyCamera (v : Viewer) : Viewer := {|
  store := store v;
  worldContainer := {|
    position_x := x (camera (store v));
    position_y := y (camera (store v));
    scale_x := zoom (camera (store v))
  |};
  isDragging := isDragging v;
  dragStart := dragStart v;
  lastPosition := lastPosition v
|}.

(** [updateCamera(patch)], followed by the effect. *)
Definition moveCamera (patch : CameraPatch) (v : Viewer) : Viewer :=
  applyCamera {|
    store := updateCamera patch (store v);
    worldContainer := worldContainer v;
    isDragging := isDragging v;
    dragStart := dragStart v;
    lastPosition := lastPosition v
  |}.

Definition handle (v : Viewer) (e : InputEvent) : Viewer :=
  match e with
  | MouseDown cx cy => {|
      store := store v;
      worldContainer := worldContainer v;
      isDragging := true;
      dragStart := {| px := cx; py := cy |};
      lastPosition := {| px := position_x (worldContainer v);
                         py := position_y (worldContainer v) |}
    |}
  | MouseMove cx cy =>
      if isDragging v
      then
        let deltaX := cx - px (dragStart v) in
        let deltaY := cy - py (dragStart v) in
        moveCamera {| patch_x := Some (px (lastPosition v) + deltaX);
                      patch_y := Some (py (lastPosition v) + deltaY);
                      patch_zoom := None |} v
      else v
  | MouseUp => {|
      store := store v;
      worldContainer := worldContainer v;
      isDragging := false;
      dragStart := dragStart v;
      lastPosition := lastPosition v
    |}
  | Wheel deltaY =>
      let currentZoom := scale_x (worldContainer v) in
      moveCamera {| patch_x := None; patch_y := None;
                    patch_zoom := Some (newZoom deltaY currentZoom) |} v
  end.

Definition handleAll (v : Viewer) (es : list InputEvent) : Viewer :=
  fold_left handle es v.

(** The viewer once [setupCameraControls] has run on a store [s]. *)
Definition setup (s : SimulationState) : Viewer :=
  applyCamera {|
    store := s;
    worldContainer := {| position_x := 0; position_y := 0; scale_x := 1 |};
    isDragging := false;
    dragStart := {| px := 0; py := 0 |};
    lastPosition := {| px := 0; py := 0 |}
  |}.

End WorldViewer.

(* ===================================================================== *)
(** ** The browser side of a hook: sockets and timers                     *)
(* ===================================================================== *)

Module Browser.

Inductive ReadyState := CONNECTING | OPEN | CLOSING | CLOSED.

(** What a hook sends: the two envelopes it builds. *)
Inductive Envelope :=
| Subscribe (topics : list string)
| Ping (timestamp : Z).

(** A [WebSocket] object: its state, and what [send] was given so far. *)
Record Socket := {
  readyState : ReadyState;
  sent : list Envelope
}.

Definition readyState_eqb (a b : ReadyState) : bool :=
  match a, b with
  | CONNECTING, CONNECTING | OPEN, OPEN | CLOSING, CLOSING | CLOSED, CLOSED => true
  | _, _ => false
  end.

(** The URL a hook is given, with what [new WebSocket(url)] does with it:
    the constructor creates the socket, or throws (on a string the
    browser's URL parser fails on, on a scheme that is not one it takes,
    on a URL with a fragment).  Which strings it takes is decided by the
    browser's URL parser, which is not modelled: a URL comes with the
    constructor's verdict on it. *)
Inductive Url :=
| Accepted (href : string)
| Refused (href : string).

(** Whether [new WebSocket(url)] returns. *)
Definition validUrl (url : Url) : bool :=
  match url with
  | Accepted _ => true
  | Refused _ => false
  end.

Definition newSocket : Socket := {| readyState := CONNECTING; sent := [] |}.

(** [ws.send(JSON.stringify(e))] on an open socket; the hooks call it on
    no other. *)
Definition send (e : Envelope) (sk : Socket) : Socket :=
  match readyState sk with
  | OPEN => {| readyState := OPEN; sent := sent sk ++ [e] |}
  | _ => sk
  end.

(** [ws.close()]: starts the closing handshake of a socket that is not
    closing or closed already; the close event comes later. *)
Definition close (sk : Socket) : Socket :=
  match readyState sk with
  | CONNECTING | OPEN => {| readyState := CLOSING; sent := sent sk |}
  | CLOSING | CLOSED => sk
  end.

Definition setReadyState (r : ReadyState) (sk : Socket) : Socket :=
  {| readyState := r; sent := sent sk |}.

(** [wsRef.current?.readyState === WebSocket.OPEN], over the table of the
    sockets created so far. *)
Definition isOpen (sockets : list Socket) (ref : option nat) : bool :=
  match ref with
  | Some ws =>
      match sockets !! ws with
      | Some sk => readyState_eqb (readyState sk) OPEN
      | None => false
      end
  | None => false
  end.

End Browser.

(* ===================================================================== *)
(** ** world-viewer: [hooks/useWebSocket.ts]                              *)
(* ===================================================================== *)

Module UseWebSocket.
Import Js SimulationStore Browser.

(** A parsed frame, [{ topic, data }], by topic: the payload has the type
    the handler of that topic passes it on with. *)
Inductive WebSocketMessage :=
| MetricsUpdate (data : MetricsData)
| WorldDelta (actors_delta : option (list Agent)) (tiles_delta : option value)
| EventsStream (data : obj)
| PolicyVote (data : obj)
| OtherTopic (topic : string) (data : value).

Definition topic (m : WebSocketMessage) : string :=
  match m with
  | MetricsUpdate _ => "metrics.update"
  | WorldDelta _ _ => "world.delta"
  | EventsStream _ => "events.stream"
  | PolicyVote _ => "policy.vote"
  | OtherTopic t _ => t
  end.

Inductive ConnectionState := connecting | connected | disconnected.

Definition ConnectionState_eqb (a b : ConnectionState) : bool :=
  match a, b with
  | connecting, connecting | connected, connected | disconnected, disconnected => true
  | _, _ => false
  end.

(** The two timers of the hook: [setTimeout(() => connect(), delay)] and
    [setInterval(() => sendMessage(ping), period)]. *)
Inductive Timer :=
| ReconnectTimeout (delay : Z)
| HeartbeatInterval (period : Z).

Definition maxReconnectAttempts : nat := 5.
Definition reconnectDelay : Z := 3000.
Definition heartbeatPeriod : Z := 30000.

Definition subscribeMessage : Envelope :=
  Subscribe ["metrics.update"; "world.delta"; "events.stream"; "policy.vote"].

(** The hook's refs and state, the store it writes to, and the sockets and
    timers it created.  A socket is named by its index in [sockets], a
    timer by its handle; [nextTimer] is the next handle the browser gives
    out (handles are positive).  [heartbeatInterval] is the handle the
    live heartbeat effect holds for its cleanup. *)
Record Hook := {
  url : Url;
  mounted : bool;
  store : SimulationState;
  connectionState : ConnectionState;
  wsRef : option nat;
  reconnectTimeoutRef : option nat;
  reconnectAttempts : nat;
  heartbeatInterval : option nat;
  sockets : list Socket;
  timers : gmap nat Timer;
  nextTimer : nat
}.

Definition set_mounted (v : bool) (h : Hook) : Hook := {|
  url := url h;
  mounted := v;
  store := store h;
  connectionState := connectionState h;
  wsRef := wsRef h;
  reconnectTimeoutRef := reconnectTimeoutRef h;
  reconnectAttempts := reconnectAttempts h;
  heartbeatInterval := heartbeatInterval h;
  sockets := sockets h;
  timers := timers h;
  nextTimer := nextTimer h
|}.

Definition set_store (v : SimulationState) (h : Hook) : Hook := {|
  url := url h;
  mounted := mounted h;
  store := v;
  connectionState := connectionState h;
  wsRef := wsRef h;
  reconnectTimeoutRef := reconnectTimeoutRef h;
  reconnectAttempts := reconnectAttempts h;
  heartbeatInterval := heartbeatInterval h;
  sockets := sockets h;
  timers := timers h;
  nextTimer := nextTimer h
|}.

Definition set_connectionState (v : ConnectionState) (h : Hook) : Hook := {|
  url := url h;
  mounted := mounted h;
  store := store h;
  connectionState := v;
  wsRef := wsRef h;
  reconnectTimeoutRef := reconnectTimeoutRef h;
  reconnectAttempts := reconnectAttempts h;
  heartbeatInterval := heartbeatInterval h;
  sockets := sockets h;
  timers := timers h;
  nextTimer := nextTimer h
|}.

Definition set_wsRef (v : option nat) (h : Hook) : Hook := {|
  url := url h;
  mounted := mounted h;
  store := store h;
  connectionState := connectionState h;
  wsRef := v;
  reconnectTimeoutRef := reconnectTimeoutRef h;
  reconnectAttempts := reconnectAttempts h;
  heartbeatInterval := heartbeatInterval h;
  sockets := sockets h;
  timers := timers h;
  nextTimer := nextTimer h
|}.

Definition set_reconnectTimeoutRef (v : option nat) (h : Hook) : Hook := {|
  url := url h;
  mounted := mounted h;
  store := store h;
  connectionState := connectionState h;
  wsRef := wsRef h;
  reconnectTimeoutRef := v;
  reconnectAttempts := reconnectAttempts h;
  heartbeatInterval := heartbeatInterval h;
  sockets := sockets h;
  timers := timers h;
  nextTimer := nextTimer h
|}.

Definition set_reconnectAttempts (v : nat) (h : Hook) : Hook := {|
  url := url h;
  mounted := mounted h;
  store := store h;
  connectionState := connectionState h;
  wsRef := wsRef h;
  reconnectTimeoutRef := reconnectTimeoutRef h;
  reconnectAttempts := v;
  heartbeatInterval := heartbeatInterval h;
  sockets := sockets h;
  timers := timers h;
  nextTimer := nextTimer h
|}.

Definition set_heartbeatInterval (v : option nat) (h : Hook) : Hook := {|
  url := url h;
  mounted := mounted h;
  store := store h;
  connectionState := connectionState h;
  wsRef := wsRef h;
  reconnectTimeoutRef := reconnectTimeoutRef h;
  reconnectAttempts := reconnectAttempts h;
  heartbeatInterval := v;
  sockets := sockets h;
  timers := timers h;
  nextTimer := nextTimer h
|}.

Definition set_sockets (v : list Socket) (h : Hook) : Hook := {|
  url := url h;
  mounted := mounted h;
  store := store h;
  connectionState := connectionState h;
  wsRef := wsRef h;
  reconnectTimeoutRef := reconnectTimeoutRef h;
  reconnectAttempts := reconnectAttempts h;
  heartbeatInterval := heartbeatInterval h;
  sockets := v;
  timers := timers h;
  nextTimer := nextTimer h
|}.

Definition set_timers (v : gmap nat Timer) (h : Hook) : Hook := {|
  url := url h;
  mounted := mounted h;
  store := store h;
  connectionState := connectionState h;
  wsRef := wsRef h;
  reconnectTimeoutRef := reconnectTimeoutRef h;
  reconnectAttempts := reconnectAttempts h;
  heartbeatInterval := heartbeatInterval h;
  sockets := sockets h;
  timers := v;
  nextTimer := nextTimer h
|}.

Definition set_nextTimer (v : nat) (h : Hook) : Hook := {|
  url := url h;
  mounted := mounted h;
  store := store h;
  connectionState := connectionState h;
  wsRef := wsRef h;
  reconnectTimeoutRef := reconnectTimeoutRef h;
  reconnectAttempts := reconnectAttempts h;
  heartbeatInterval := heartbeatInterval h;
  sockets := sockets h;
  timers := timers h;
  nextTimer := v
|}.

Definition on_store (f : SimulationState -> SimulationState) (h : Hook) : Hook :=
  set_store (f (store h)) h.

Definition on_socket (f : Socket -> Socket) (ws : nat) (h : Hook) : Hook :=
  set_sockets (alter f ws (sockets h)) h.

(** [setConnectionState(c)]: a state update of an unmounted component is
    dropped. *)
Definition setConnectionState (c : ConnectionState) (h : Hook) : Hook :=
  if mounted h then set_connectionState c h else h.

(** [setTimeout] and [setInterval]: the timer is registered under a fresh
    handle, which is returned. *)
Definition setTimer (tm : Timer) (h : Hook) : Hook * nat :=
  let t := nextTimer h in
  (set_nextTimer (S t) (set_timers (<[t := tm]> (timers h)) h), t).

(** [clearTimeout(t)] and [clearInterval(t)]. *)
Definition clearTimer (t : nat) (h : Hook) : Hook :=
  set_timers (delete t (timers h)) h.

Definition connect (h : Hook) : Hook :=
  if isOpen (sockets h) (wsRef h) then h
  else
    let h1 := setConnectionState connecting h in
    if validUrl (url h1)
    then set_wsRef (Some (length (sockets h1)))
           (set_sockets (sockets h1 ++ [newSocket]) h1)
    else setConnectionState disconnected
           (on_store (setConnectionError (Some "无法创建 WebSocket 连接")) h1).

(** [ws.onopen], for the socket [ws] that [connect] attached it to. *)
Definition onopen (ws : nat) (h : Hook) : Hook :=
  let h1 := setConnectionState connected h in
  let h2 := on_store (setConnected true) h1 in
  let h3 := on_store (setConnectionError None) h2 in
  let h4 := set_reconnectAttempts 0%nat h3 in
  on_socket (send subscribeMessage) ws h4.

Definition handleMessage (m : WebSocketMessage) (s : SimulationState) : SimulationState :=
  match m with
  | MetricsUpdate data => updateMetrics data s
  | WorldDelta (Some delta) _ => updateAgents delta s
  | WorldDelta None _ => s
  | EventsStream data => addEvent data s
  | PolicyVote data => addEvent (<["type" := VStr "policy_vote"]> data) s
  | OtherTopic _ _ => s
  end.

(** [ws.onmessage]: a frame that does not parse ([None]) is logged and
    dropped. *)
Definition onmessage (frame : option WebSocketMessage) (h : Hook) : Hook :=
  match frame with
  | Some m => on_store (handleMessage m) h
  | None => h
  end.

Definition onclose (h : Hook) : Hook :=
  let h1 := setConnectionState disconnected h in
  let h2 := on_store (setConnected false) h1 in
  if (reconnectAttempts h2 <? maxReconnectAttempts)%nat
  then
    let h3 := set_reconnectAttempts (S (reconnectAttempts h2)) h2 in
    let '(h4, t) := setTimer (ReconnectTimeout reconnectDelay) h3 in
    set_reconnectTimeoutRef (Some t) h4
  else on_store (setConnectionError (Some "连接失败，已达到最大重试次数")) h2.

Definition onerror (h : Hook) : Hook :=
  on_store (setConnectionError (Some "WebSocket 连接错误")) h.

Definition disconnect (h : Hook) : Hook :=
  let h1 := match reconnectTimeoutRef h with
            | Some t => clearTimer t h
            | None => h
            end in
  let h2 := match wsRef h1 with
            | Some ws => set_wsRef None (on_socket close ws h1)
            | None => h1
            end in
  on_store (setConnected false) (setConnectionState disconnected h2).

Definition sendMessage (e : Envelope) (h : Hook) : Hook :=
  if isOpen (sockets h) (wsRef h)
  then match wsRef h with
       | Some ws => on_socket (send e) ws h
       | None => h
       end
  else h.

(** *** The heartbeat effect, [useEffect(..., [connectionState])] *)

(** Its cleanup: [clearInterval(heartbeatInterval)]. *)
Definition clearHeartbeat (h : Hook) : Hook :=
  match heartbeatInterval h with
  | Some i => set_heartbeatInterval None (clearTimer i h)
  | None => h
  end.

(** Its body. *)
Definition heartbeatEffect (h : Hook) : Hook :=
  match connectionState h with
  | connected =>
      let '(h1, i) := setTimer (HeartbeatInterval heartbeatPeriod) h in
      set_heartbeatInterval (Some i) h1
  | _ => h
  end.

(** The commit after a handler ran: when [connectionState] is not what it
    was at the last render ([prev]), the effect is cleaned up and run
    again. *)
Definition commit (prev : ConnectionState) (h : Hook) : Hook :=
  if mounted h && negb (ConnectionState_eqb prev (connectionState h))
  then heartbeatEffect (clearHeartbeat h)
  else h.

(** *** Events *)

(** What can happen to a mounted hook: an event of one of its sockets, one
    of its timers firing ([now] is the clock then), a call of the
    [connect] or [disconnect] it returns, and the unmount. *)
Inductive Event :=
| WsOpen (ws : nat)
| WsMessage (ws : nat) (frame : option WebSocketMessage)
| WsError (ws : nat)
| WsClose (ws : nat)
| TimerFire (t : nat) (now : Z)
| CallConnect
| CallDisconnect
| Unmount.

Definition readyStateOf (h : Hook) (ws : nat) : option ReadyState :=
  readyState <$> sockets h !! ws.

(** A socket whose close event is still to come. *)
Definition live (h : Hook) (ws : nat) : bool :=
  match readyStateOf h ws with
  | Some CONNECTING | Some OPEN | Some CLOSING => true
  | _ => false
  end.

(** The handler an event runs.  An event that cannot happen in [h] (an
    open event of a socket that is not connecting, a message on a socket
    that is not open, an event of a closed socket, a cleared timer
    firing) runs none. *)
Definition dispatch (h : Hook) (e : Event) : Hook :=
  match e with
  | WsOpen ws =>
      match readyStateOf h ws with
      | Some CONNECTING => onopen ws (on_socket (setReadyState OPEN) ws h)
      | _ => h
      end
  | WsMessage ws frame =>
      match readyStateOf h ws with
      | Some OPEN => onmessage frame h
      | _ => h
      end
  | WsError ws =>
      match readyStateOf h ws with
      | Some CONNECTING | Some OPEN | Some CLOSING => onerror h
      | _ => h
      end
  | WsClose ws =>
      match readyStateOf h ws with
      | Some CONNECTING | Some OPEN | Some CLOSING =>
          onclose (on_socket (setReadyState CLOSED) ws h)
      | _ => h
      end
  | TimerFire t now =>
      match timers h !! t with
      | Some (ReconnectTimeout _) => connect (clearTimer t h)
      | Some (HeartbeatInterval _) => sendMessage (Ping now) h
      | None => h
      end
  | CallConnect => connect h
  | CallDisconnect => disconnect h
  | Unmount =>
      if mounted h then disconnect (set_mounted false (clearHeartbeat h)) else h
  end.

Definition step (h : Hook) (e : Event) : Hook :=
  commit (connectionState h) (dispatch h e).

Definition run (h : Hook) (es : list Event) : Hook :=
  fold_left step es h.

(** The hook before its effects ran, over a store [s]. *)
Definition init (u : Url) (s : SimulationState) : Hook := {|
  url := u;
  mounted := true;
  store := s;
  connectionState := disconnected;
  wsRef := None;
  reconnectTimeoutRef := None;
  reconnectAttempts := 0;
  heartbeatInterval := None;
  sockets := [];
  timers := ∅;
  nextTimer := 1
|}.

(** The mount: the heartbeat effect finds the hook disconnected, the
    second effect calls [connect()]. *)
Definition mount (u : Url) (s : SimulationState) : Hook :=
  step (init u s) CallConnect.

End UseWebSocket.

(* ===================================================================== *)
(** ** control-tower: [hooks/useDashboardData.ts], the WebSocket effect   *)
(* ===================================================================== *)

Module UseDashboardData.
Import Js DashboardStore Browser.

(** A parsed frame by topic, as [handleWebSocketMessage] reads it. *)
Inductive Message :=
| MetricsUpdate (data : MetricsData)
| EventsStream (data : obj)
| PolicyVote (data : obj)
| OtherTopic (topic : string) (data : value).

Definition url : Url := Accepted "ws://localhost:8000/ws".
Definition retryDelay : Z := 3000.

Definition subscribeMessage : Envelope :=
  Subscribe ["metrics.update"; "events.stream"; "policy.vote"].

(** The ref, the store, and the sockets and timeouts the effect created.
    Every timeout is a [setTimeout(connectWebSocket, 3000)]; its handle is
    not kept by the hook, [timers] holds the pending ones. *)
Record Hook := {
  store : DashboardState;
  wsRef : option nat;
  sockets : list Socket;
  timers : gset nat;
  nextTimer : nat
}.

Definition set_store (v : DashboardState) (h : Hook) : Hook := {|
  store := v;
  wsRef := wsRef h;
  sockets := sockets h;
  timers := timers h;
  nextTimer := nextTimer h
|}.

Definition set_wsRef (v : option nat) (h : Hook) : Hook := {|
  store := store h;
  wsRef := v;
  sockets := sockets h;
  timers := timers h;
  nextTimer := nextTimer h
|}.

Definition set_sockets (v : list Socket) (h : Hook) : Hook := {|
  store := store h;
  wsRef := wsRef h;
  sockets := v;
  timers := timers h;
  nextTimer := nextTimer h
|}.

Definition set_timers (v : gset nat) (h : Hook) : Hook := {|
  store := store h;
  wsRef := wsRef h;
  sockets := sockets h;
  timers := v;
  nextTimer := nextTimer h
|}.

Definition set_nextTimer (v : nat) (h : Hook) : Hook := {|
  store := store h;
  wsRef := wsRef h;
  sockets := sockets h;
  timers := timers h;
  nextTimer := v
|}.

Definition on_store (f : DashboardState -> DashboardState) (h : Hook) : Hook :=
  set_store (f (store h)) h.

Definition on_socket (f : Socket -> Socket) (ws : nat) (h : Hook) : Hook :=
  set_sockets (alter f ws (sockets h)) h.

(** [setTimeout(connectWebSocket, 3000)]. *)
Definition setTimeout (h : Hook) : Hook :=
  let t := nextTimer h in
  set_nextTimer (S t) (set_timers ({[t]} ∪ timers h) h).

Definition connectWebSocket (h : Hook) : Hook :=
  if isOpen (sockets h) (wsRef h) then h
  else if validUrl url
  then set_wsRef (Some (length (sockets h))) (set_sockets (sockets h ++ [newSocket]) h)
  else on_store (setConnectionError (Some "无法创建 WebSocket 连接")) h.

Definition onopen (ws : nat) (h : Hook) : Hook :=
  let h1 := on_store (setConnected true) h in
  let h2 := on_store (setConnectionError None) h1 in
  on_socket (send subscribeMessage) ws h2.

Definition handleWebSocketMessage (now : Z) (m : Message) (s : DashboardState) : DashboardState :=
  match m with
  | MetricsUpdate data => updateMetrics now data s
  | EventsStream data =>
      addEvent {| event_timestamp := data !! "timestamp";
                  event_type := data !! "event_type";
                  actor_id := data !! "actor_id";
                  payload := data !! "payload";
                  metadata := data !! "metadata" |} s
  | PolicyVote data =>
      addEvent {| event_timestamp := data !! "timestamp";
                  event_type := Some (VStr "policy_vote");
                  actor_id := data !! "member_id";
                  payload := Some (VObj data);
                  metadata := None |} s
  | OtherTopic _ _ => s
  end.

Definition onmessage (now : Z) (frame : option Message) (h : Hook) : Hook :=
  match frame with
  | Some m => on_store (handleWebSocketMessage now m) h
  | None => h
  end.

(** [ws.onclose]: [setConnected(false)], then the retry is scheduled. *)
Definition onclose (h : Hook) : Hook :=
  setTimeout (on_store (setConnected false) h).

Definition onerror (h : Hook) : Hook :=
  on_store (setConnectionError (Some "WebSocket 连接失败")) h.

(** The cleanup the effect returns:
    [if (wsRef.current) { wsRef.current.close() }]. *)
Definition cleanup (h : Hook) : Hook :=
  match wsRef h with
  | Some ws => on_socket close ws h
  | None => h
  end.

Inductive Event :=
| WsOpen (ws : nat)
| WsMessage (ws : nat) (now : Z) (frame : option Message)
| WsError (ws : nat)
| WsClose (ws : nat)
| TimerFire (t : nat)
| Unmount.

Definition readyStateOf (h : Hook) (ws : nat) : option ReadyState :=
  readyState <$> sockets h !! ws.

(** The handler an event runs; an event that cannot happen in [h] runs
    none. *)
Definition step (h : Hook) (e : Event) : Hook :=
  match e with
  | WsOpen ws =>
      match readyStateOf h ws with
      | Some CONNECTING => onopen ws (on_socket (setReadyState OPEN) ws h)
      | _ => h
      end
  | WsMessage ws now frame =>
      match readyStateOf h ws with
      | Some OPEN => onmessage now frame h
      | _ => h
      end
  | WsError ws =>
      match readyStateOf h ws with
      | Some CONNECTING | Some OPEN | Some CLOSING => onerror h
      | _ => h
      end
  | WsClose ws =>
      match readyStateOf h ws with
      | Some CONNECTING | Some OPEN | Some CLOSING =>
          onclose (on_socket (setReadyState CLOSED) ws h)
      | _ => h
      end
  | TimerFire t =>
      if decide (t ∈ timers h)
      then connectWebSocket (set_timers (timers h ∖ {[t]}) h)
      else h
  | Unmount => cleanup h
  end.

Definition run (h : Hook) (es : list Event) : Hook :=
  fold_left step es h.

(** The effect's body on mount, over a store [s]: [connectWebSocket()]. *)
Definition mount (s : DashboardState) : Hook :=
  connectWebSocket {|
    store := s;
    wsRef := None;
    sockets := [];
    timers := ∅;
    nextTimer := 1
  |}.

End UseDashboardData.

(* ===================================================================== *)
(** ** The entity registry as the specification words it                  *)
(* ===================================================================== *)

(** These definitions follow the specification's sentence on the entity
    registry ("upsert-by-id: an update for an unknown id inserts it, for a
    known id replaces its fields"), not the source; they are what
    [updateAgents] is compared with. *)
Module RegistrySpec.
Import Js SimulationStore.

(** The fields of [delta] over those of [old]. *)
Definition mergeFields (delta old : Agent) : Agent := delta ∪ old.

Fixpoint upsert (delta : Agent) (registry : list Agent) : list Agent :=
  match registry with
  | [] => [delta]
  | a :: rest =>
      if sameId a delta then mergeFields delta a :: rest
      else a :: upsert delta rest
  end.

Definition upsertAll (deltas registry : list Agent) : list Agent :=
  fold_left (fun r d => upsert d r) deltas registry.

(** The entities of the specification's scenario, under the keys the
    source gives them. *)
Definition firm5 : Agent :=
  {[ "agent_id" := VNum 5; "agent_type" := VStr "firm"; "status" := VStr "active" ]}.

Definition delta5 : Agent :=
  {[ "agent_id" := VNum 5; "status" := VStr "bankrupt" ]}.

Definition firm5_bankrupt : Agent :=
  {[ "agent_id" := VNum 5; "agent_type" := VStr "firm"; "status" := VStr "bankrupt" ]}.

Definition person6 : Agent :=
  {[ "agent_id" := VNum 6; "agent_type" := VStr "person"; "status" := VStr "active" ]}.

End RegistrySpec.

(* ===================================================================== *)
(** ** The time jump as the specification words it                        *)
(* ===================================================================== *)

(** These definitions follow the specification's sentence on the time
    jump ("if the requested target logical time is earlier than the
    current one, issue rewind; otherwise issue jump"), not the source: the
    requested target is the number the text of the number field denotes.
    They are what [handleJump] is compared with. *)
Module JumpSpec.
Local Open Scope Q_scope.










End JumpSpec.

(* ===================================================================== *)
(** ** Predicates on the world-viewer hook used in the statements         *)
(* ===================================================================== *)

Module HookInvariant.
Import Browser UseWebSocket.

(** The subscribe envelope, then pings only. *)
Definition subscribedThenPings (l : list Envelope) : Prop :=
  exists ts, l = subscribeMessage :: map Ping ts.

(** What a socket of the hook has sent, by its state: nothing before it
    opens; once open, the subscribe envelope and then pings; after that,
    either of the two. *)
Definition sequenced (sk : Socket) : Prop :=
  match readyState sk with
  | CONNECTING => sent sk = []
  | OPEN => subscribedThenPings (sent sk)
  | CLOSING | CLOSED => sent sk = [] \/ subscribedThenPings (sent sk)
  end.

(** The invariant of a run, stated before the commit: [prev] is the
    [connectionState] the registered heartbeat effect was run in.  Timer
    handles below [nextTimer] only; the handle the heartbeat effect holds
    is a registered heartbeat interval, the only one, registered in state
    connected on a mounted hook; [reconnectTimeoutRef] never names the
    heartbeat; the counter is bounded; every socket is [sequenced]. *)
Record inv (prev : ConnectionState) (h : Hook) : Prop := {
  timers_fresh : forall t tm, timers h !! t = Some tm -> (t < nextTimer h)%nat;
  heartbeat_registered : forall i, heartbeatInterval h = Some i ->
    timers h !! i = Some (HeartbeatInterval heartbeatPeriod);
  heartbeat_only : forall t p, timers h !! t = Some (HeartbeatInterval p) ->
    p = heartbeatPeriod /\ heartbeatInterval h = Some t /\
    prev = connected /\ mounted h = true;
  ref_fresh : forall t, reconnectTimeoutRef h = Some t -> (t < nextTimer h)%nat;
  ref_not_heartbeat : forall t p, reconnectTimeoutRef h = Some t ->
    timers h !! t <> Some (HeartbeatInterval p);
  attempts_bounded : (reconnectAttempts h <= maxReconnectAttempts)%nat;
  sockets_sequenced : Forall sequenced (sockets h)
}.

Definition wf (h : Hook) : Prop := inv (connectionState h) h.

(** The heartbeat is registered while a mounted hook is connected. *)
Definition beating (prev : ConnectionState) (h : Hook) : Prop :=
  mounted h = true -> prev = connected -> exists i, heartbeatInterval h = Some i.

(** The invariant of a run. *)
Definition steady (h : Hook) : Prop := wf h /\ beating (connectionState h) h.

(** What an event adds to what a socket has sent. *)
Definition emission (h : Hook) (e : Event) (ws : nat) (sk sk' : Socket) : Prop :=
  sent sk' = sent sk \/
  (e = WsOpen ws /\ readyState sk = CONNECTING /\
   sent sk' = sent sk ++ [subscribeMessage]) \/
  (exists t now,
     e = TimerFire t now /\
     timers h !! t = Some (HeartbeatInterval heartbeatPeriod) /\
     connectionState h = connected /\ mounted h = true /\
     wsRef h = Some ws /\ readyState sk = OPEN /\
     sent sk' = sent sk ++ [Ping now]).

(** Nothing is left that could open a channel: every socket is closed and
    no reconnect is pending. *)
Definition quiet (h : Hook) : Prop :=
  Forall (fun sk => readyState sk = CLOSED) (sockets h) /\
  (forall t d, timers h !! t <> Some (ReconnectTimeout d)).

End HookInvariant.

(* ===================================================================== *)
(** ** Concrete inputs the statements are instantiated at                 *)
(* ===================================================================== *)

Module Scenario.
Import SimulationStore.

Definition serverUrl : Browser.Url := Browser.Accepted "ws://localhost:8000/ws".

(** A status at logical time [c]. *)
Definition statusAt (c : Z) : SimulationStatus := {|
  state := paused;
  current_time := c;
  speed := 1;
  status_total_agents := 0;
  steps_per_second := 0
|}.

(** Five channels in a row fail before they open; the sixth is being
    opened. *)
Definition fiveFailures : list UseWebSocket.Event :=
  [UseWebSocket.WsClose 0; UseWebSocket.TimerFire 1 3000;
   UseWebSocket.WsClose 1; UseWebSocket.TimerFire 2 6000;
   UseWebSocket.WsClose 2; UseWebSocket.TimerFire 3 9000;
   UseWebSocket.WsClose 3; UseWebSocket.TimerFire 4 12000;
   UseWebSocket.WsClose 4; UseWebSocket.TimerFire 5 15000].

End Scenario.

(* ===================================================================== *)
(** ** control-tower: the rest of [dashboardStore.ts]                     *)
(* ===================================================================== *)

Module DashboardSelectors.
Import Js DashboardStore.

(** [arr.includes(x)] on strings. *)
Definition includes (x : string) (arr : list string) : bool :=
  existsb (String.eqb x) arr.

(** [toggleMetric]: the metric is removed when the list includes it, and
    appended otherwise. *)
Definition toggleMetric (metric : string) (s : DashboardState) : DashboardState := {|
  isConnected := isConnected s;
  connectionError := connectionError s;
  lastUpdateTime := lastUpdateTime s;
  simulationStatus := simulationStatus s;
  currentMetrics := currentMetrics s;
  metricsHistory := metricsHistory s;
  events := events s;
  scenarios := scenarios s;
  snapshots := snapshots s;
  selectedScenario := selectedScenario s;
  autoRefresh := autoRefresh s;
  refreshInterval := refreshInterval s;
  chartTimeRange := chartTimeRange s;
  selectedMetrics :=
    if includes metric (selectedMetrics s)
    then List.filter (fun m => negb (String.eqb m metric)) (selectedMetrics s)
    else selectedMetrics s ++ [metric]
|}.

(** The store after the events of [arrivals] were added in that order. *)
Definition addEvents (arrivals : list DashboardEvent) (s : DashboardState)
    : DashboardState :=
  fold_left (fun st e => addEvent e st) arrivals s.

(** [useRecentEvents(limit)]: [state.events.slice(-limit).reverse()]. *)
Definition useRecentEvents (limit : Z) (s : DashboardState) : list DashboardEvent :=
  rev (slice (- limit) (events s)).

(** What indexing the object literal [ranges] by a string gives: the
    milliseconds of one of its four keys, a member inherited from
    [Object.prototype], or [undefined]. *)
Inductive RangeEntry :=
| Millis (ms : Z)
| Inherited
| Missing.

(** The property names of [Object.prototype]. *)
Definition objectPrototype : list string :=
  ["constructor"; "hasOwnProperty"; "isPrototypeOf"; "propertyIsEnumerable";
   "toLocaleString"; "toString"; "valueOf"; "__proto__";
   "__defineGetter__"; "__defineSetter__"; "__lookupGetter__"; "__lookupSetter__"].

(** [ranges[timeRange]]. *)
Definition ranges (timeRange : string) : RangeEntry :=
  if String.eqb timeRange "1h" then Millis (60 * 60 * 1000)
  else if String.eqb timeRange "6h" then Millis (6 * 60 * 60 * 1000)
  else if String.eqb timeRange "24h" then Millis (24 * 60 * 60 * 1000)
  else if String.eqb timeRange "7d" then Millis (7 * 24 * 60 * 60 * 1000)
  else if includes timeRange objectPrototype then Inherited
  else Missing.

(** [now - (ranges[timeRange] || ranges['1h'])]; [None] is NaN, what the
    subtraction of an inherited member (a function or an object, both
    truthy) gives. *)
Definition cutoff (now : Z) (timeRange : string) : option Z :=
  match ranges timeRange with
  | Millis ms => Some (now - (if ms =? 0 then 60 * 60 * 1000 else ms))
  | Missing => Some (now - 60 * 60 * 1000)
  | Inherited => None
  end.

(** [m.timestamp * 1000 > cutoff]; no number is greater than NaN. *)
Definition after (cutoff : option Z) (m : MetricsData) : bool :=
  match cutoff with
  | Some c => c <? timestamp m * 1000
  | None => false
  end.

(** [useFilteredMetricsHistory(timeRange)]; [now] is [Date.now()]. *)
Definition useFilteredMetricsHistory (now : Z) (timeRange : string)
    (s : DashboardState) : list MetricsData :=
  List.filter (after (cutoff now timeRange)) (metricsHistory s).

End DashboardSelectors.

(* ===================================================================== *)
(** ** control-tower: [components/KPICards.tsx]                           *)
(* ===================================================================== *)

Module KPICards.
Import Js DashboardStore.
Local Open Scope Q_scope.

(** The keys of the cards, the [key] of each entry of [kpis] in the
    component; [calculateChange] is called with no other. *)
Inductive CardKey :=
| gdp_key
| unemployment_key
| inflation_key
| policy_rate_key
| total_agents_key
| credit_growth_key.

Definition keyName (key : CardKey) : string :=
  match key with
  | gdp_key => "gdp"
  | unemployment_key => "unemployment"
  | inflation_key => "inflation"
  | policy_rate_key => "policy_rate"
  | total_agents_key => "total_agents"
  | credit_growth_key => "credit_growth"
  end.

(** The [inverse] of a card: set on the unemployment card only. *)
Definition inverse (key : CardKey) : bool :=
  match key with
  | unemployment_key => true
  | _ => false
  end.

(** [m.kpis[key]]; [None] is [undefined]. *)
Definition kpi (key : CardKey) (k : KPIs) : option Q :=
  match key with
  | gdp_key => Some (gdp k)
  | unemployment_key => Some (unemployment k)
  | inflation_key => Some (inflation k)
  | policy_rate_key => Some (policy_rate k)
  | total_agents_key => Some (inject_Z (total_agents k))
  | credit_growth_key => credit_growth k
  end.

(** What [calculateChange] returns: [null], a number, or NaN (the
    arithmetic on a current value that is [undefined]). *)
Inductive Change :=
| Null
| NaN
| Percent (change : Q).

(** [a < b] on numbers. *)
Definition Qltb (a b : Q) : bool := negb (Qle_bool b a).

Definition calculateChange (key : CardKey) (current : MetricsData)
    (history : list MetricsData) : Change :=
  if (length history <? 2)%nat then Null
  else
    match history !! (length history - 2)%nat with
    | None => Null
    | Some previous =>
        match kpi key (kpis previous) with
        | None => Null
        | Some previousValue =>
            if Qeq_bool previousValue 0 then Null
            else
              match kpi key (kpis current) with
              | None => NaN
              | Some currentValue =>
                  Percent ((currentValue - previousValue) / previousValue * 100)
              end
        end
    end.

Inductive ChangeClass := neutral | positive | negative.

(** [getChangeClass(change, inverse)]. *)
Definition getChangeClass (change : Q) (inverse : bool) : ChangeClass :=
  if Qltb (Qabs change) 0.01 then neutral
  else
    let isPositive := if inverse then Qltb change 0 else Qltb 0 change in
    if isPositive then positive else negative.

End KPICards.

(* ===================================================================== *)
(** ** control-tower: [components/SystemStatus.tsx], the time controls    *)
(* ===================================================================== *)

Module SystemStatus.
Import Js.

(** The calls of the two callbacks the component is given. *)
Inductive Callback :=
| OnJump (time : Z)
| OnRewind (time : Z).

Record TimeControlState := {
  jumpTarget : string;
  showJumpInput : bool
}.

Definition handleJump (currentTime : Z) (ui : TimeControlState)
    : TimeControlState * option Callback :=
  match parseInt (jumpTarget ui) with
  | Some target =>
      if 0 <=? target
      then ({| jumpTarget := ""; showJumpInput := false |},
            Some (if target <? currentTime then OnRewind target else OnJump target))
      else (ui, None)
  | None => (ui, None)
  end.

(** [quickRewind(steps)]: [onRewind(Math.max(0, currentTime - steps))]. *)
Definition quickRewind (currentTime steps : Z) : Callback :=
  OnRewind (Z.max 0 (currentTime - steps)).

(** [disabled={disabled || currentTime < steps}] of the two buttons. *)
Definition quickRewindDisabled (disabled : bool) (currentTime steps : Z) : bool :=
  disabled || (currentTime <? steps).

End SystemStatus.

(* ===================================================================== *)
(** ** world-viewer: the rest of [simulationStore.ts] and [TimeBar.tsx]   *)
(* ===================================================================== *)

Module SimulationSelectors.
Import Js SimulationStore UseSimulationControl.

(** The store after the events of [arrivals] were added in that order. *)
Definition addEvents (arrivals : list obj) (s : SimulationState) : SimulationState :=
  fold_left (fun st e => addEvent e st) arrivals s.

(** [useAgentsByType(agentType)]: with no type, or the empty one, every
    agent. *)
Definition useAgentsByType (agentType : option string) (s : SimulationState)
    : list Agent :=
  match agentType with
  | Some t =>
      if String.eqb t "" then agents s
      else List.filter
             (fun agent : Agent => strict_eq (agent !! "agent_type") (Some (VStr t)))
             (agents s)
  | None => agents s
  end.

(** The rewind button of the time bar:
    [rewind(Math.max(0, currentTime - 100))]. *)
Definition rewindButton (status : option SimulationStatus) : Command :=
  Rewind (Z.max 0 (TimeBar.currentTime status - 100)).

(** [disabled={isLoading || currentTime === 0}] of that button. *)
Definition rewindDisabled (isLoading : bool) (status : option SimulationStatus) : bool :=
  isLoading || (TimeBar.currentTime status =? 0).

(** Whether the API call of a command of a session resolved. *)
Definition resolved (co : Command * Outcome) : bool :=
  match snd co with
  | Resolved => true
  | Rejected _ => false
  end.

(** The commands of [session], each with how its API call settled, issued
    one after the other. *)
Definition issueAll (session : list (Command * Outcome)) (k : Control) : Control :=
  fold_left
    (fun st co =>
       match mutate (fst co) (snd co) st with
       | Returned st' => st'
       | Thrown _ => st
       end)
    session k.

End SimulationSelectors.

(* ===================================================================== *)
(** ** Predicates on the control-tower hook used in the statements        *)
(* ===================================================================== *)

Module DashboardInvariant.
Import Browser UseDashboardData.

(** What a socket of the hook has sent, by its state: nothing before it
    opens, the subscribe envelope alone once it is open, and one of the
    two after that. *)
Definition subscribedOnce (sk : Socket) : Prop :=
  match readyState sk with
  | CONNECTING => sent sk = []
  | OPEN => sent sk = [subscribeMessage]
  | CLOSING | CLOSED => sent sk = [] \/ sent sk = [subscribeMessage]
  end.

(** A socket whose close event is still to come. *)
Definition live (h : Hook) (ws : nat) : bool :=
  match readyStateOf h ws with
  | Some CONNECTING | Some OPEN | Some CLOSING => true
  | _ => false
  end.


End DashboardInvariant.

(* ===================================================================== *)
(** ** More predicates on the world-viewer hook                           *)
(* ===================================================================== *)

Module HookEdges.
Import Browser SimulationStore UseWebSocket.

(** The state of a hook whose URL the [WebSocket] constructor rejects: no
    socket, no timer, disconnected while mounted, and the error text of
    the failed creation in the store. *)
Definition rejected (h : Hook) : Prop :=
  validUrl (url h) = false /\ sockets h = [] /\ timers h = ∅ /\
  heartbeatInterval h = None /\
  (mounted h = true -> connectionState h = disconnected) /\
  connectionError (store h) = Some "无法创建 WebSocket 连接".

End HookEdges.

(* ===================================================================== *)
(** ** More concrete inputs                                               *)
(* ===================================================================== *)

Module Samples.
Import DashboardStore.

(** A sample at time [t] (in seconds) with GDP [g]. *)
Definition sampleAt (t : Z) (g : Q) : MetricsData := {|
  timestamp := t;
  kpis := {|
    gdp := g;
    unemployment := 0.05;
    inflation := 0.02;
    policy_rate := 0.03;
    credit_growth := None;
    default_rate := None;
    total_agents := 1000
  |};
  regional_data := None;
  sectoral_data := None
|}.

(** The pointer moving through [moves], one [mousemove] each. *)
Definition pointerMoves (moves : list (Q * Q)) : list WorldViewer.InputEvent :=
  map (fun p => WorldViewer.MouseMove (fst p) (snd p)) moves.

End Samples.


(* ===================================================================== *)
(** * Properties                                                          *)
(* ===================================================================== *)

Section MetricHistory.
Import Js DashboardStore.

Lemma slice_last {A} (n : nat) (l : list A) :
  (0 < n)%nat -> slice (- Z.of_nat n) l = drop (length l - n) l.
Proof.
  intros Hn. unfold slice.
  assert (H : (- Z.of_nat n <? 0) = true) by (apply Z.ltb_lt; lia).
  rewrite H. f_equal. lia.
Qed.

(** One push onto a window that already is the last 100 of [pre]. *)
Lemma push_window {A} (pre : list A) (m : A) :
  slice (-99) (drop (length pre - 100) pre) ++ [m] =
  drop (length (pre ++ [m]) - 100) (pre ++ [m]).
Proof.
  change (-99) with (- Z.of_nat 99). rewrite slice_last by lia.
  rewrite drop_drop, length_drop, length_app. simpl.
  rewrite drop_app_le by lia. f_equal. f_equal. lia.
Qed.

Lemma pushMetrics_snoc pre a s :
  pushMetrics (pre ++ [a]) s = updateMetrics (fst a) (snd a) (pushMetrics pre s).
Proof. unfold pushMetrics. rewrite fold_left_app. reflexivity. Qed.

Lemma pushMetrics_window arrivals :
  metricsHistory (pushMetrics arrivals initialState) =
  drop (length arrivals - 100) (map snd arrivals).
Proof.
  induction arrivals as [|a pre IH] using rev_ind; [reflexivity|].
  rewrite pushMetrics_snoc. cbn [updateMetrics metricsHistory].
  rewrite IH, map_app. cbn [map].
  rewrite <- (length_map snd pre), <- (length_map snd (pre ++ [a])), map_app.
  apply push_window.
Qed.

End MetricHistory.

Section MetricHistoryClaim.
Import Js DashboardStore.

(** C2.  For every sequence of samples pushed with [updateMetrics] into the
    initial (empty) store, [metricsHistory] holds at most 100 samples and is
    the arrival sequence without all but its last 100 elements, so its
    order is the arrival order; pushing the 150 samples with timestamps
    1..150 leaves exactly those with timestamps 51..150, in that order. *)
Theorem metricsHistory_bounded_in_arrival_order :
  (forall arrivals : list (Z * MetricsData),
     (length (metricsHistory (pushMetrics arrivals initialState)) <= 100)%nat /\
     metricsHistory (pushMetrics arrivals initialState) =
       drop (length arrivals - 100) (map snd arrivals)) /\
  (forall (sample : Z -> MetricsData) (clock : Z -> Z),
     metricsHistory
       (pushMetrics (map (fun t => (clock t, sample t)) (seqZ 1 150)) initialState)
     = map sample (seqZ 51 100)).
Proof.
  split.
  - intros arrivals. rewrite pushMetrics_window. split; [|reflexivity].
    rewrite length_drop, length_map. lia.
  - intros sample clock. rewrite pushMetrics_window.
    rewrite length_map, map_map. cbn [snd].
    assert (Hd : drop (length (seqZ 1 150) - 100) (seqZ 1 150) = seqZ 51 100)
      by reflexivity.
    rewrite skipn_map, Hd. reflexivity.
Qed.

End MetricHistoryClaim.

Section LayerToggles.
Import SimulationStore.

(** C10.  For every layer key and store state, [toggleLayer] applied twice
    gives the original [showLayers] back (and the original store); applied
    once it negates the flag of that key and leaves every other layer flag
    and every other field of the store as it was. *)
Theorem toggleLayer_involutive_and_local (k : Layer) (s : SimulationState) :
  showLayers (toggleLayer k (toggleLayer k s)) = showLayers s /\
  toggleLayer k (toggleLayer k s) = s /\
  getLayer k (showLayers (toggleLayer k s)) = negb (getLayer k (showLayers s)) /\
  (forall k', k' <> k ->
     getLayer k' (showLayers (toggleLayer k s)) = getLayer k' (showLayers s)) /\
  isConnected (toggleLayer k s) = isConnected s /\
  connectionError (toggleLayer k s) = connectionError s /\
  simulationStatus (toggleLayer k s) = simulationStatus s /\
  agents (toggleLayer k s) = agents s /\
  metrics (toggleLayer k s) = metrics s /\
  events (toggleLayer k s) = events s /\
  selectedAgent (toggleLayer k s) = selectedAgent s /\
  camera (toggleLayer k s) = camera s.
Proof.
  destruct s as [ic ce ss ag me ev sa [la lu lp lf lb] ca].
  repeat split.
  - destruct k; unfold toggleLayer; cbn; rewrite negb_involutive; reflexivity.
  - destruct k; unfold toggleLayer; cbn; rewrite negb_involutive; reflexivity.
  - destruct k; reflexivity.
  - intros k' Hk. destruct k, k'; try reflexivity; contradiction.
Qed.

Lemma toggleLayer_involutive_and_local_witness :
  getLayer agents_key (showLayers (toggleLayer agents_key initialState)) = false /\
  getLayer firms_key (showLayers (toggleLayer agents_key initialState)) =
    getLayer firms_key (showLayers initialState).
Proof.
  destruct (toggleLayer_involutive_and_local agents_key initialState)
    as (_ & _ & Hflip & Hothers & _).
  split; [exact Hflip | apply Hothers; discriminate].
Defined.

End LayerToggles.

Section EntityRegistry.
Import Js SimulationStore UseWebSocket RegistrySpec.

Lemma find_some {A} (p : A -> bool) (l : list A) (a : A) :
  find p l = Some a -> a ∈ l /\ p a = true.
Proof.
  induction l as [|b l IH]; cbn; [discriminate|].
  destruct (p b) eqn:Hb.
  - intros [= ->]. split; [apply list_elem_of_here | exact Hb].
  - intros H. destruct (IH H) as [Hin Hp]. split; [|exact Hp].
    apply list_elem_of_further, Hin.
Qed.

Lemma find_none {A} (p : A -> bool) (l : list A) (a : A) :
  find p l = None -> a ∈ l -> p a = false.
Proof.
  induction l as [|b l IH]; cbn; intros Hf Hin.
  - apply elem_of_nil in Hin. contradiction.
  - destruct (p b) eqn:Hb; [discriminate|].
    apply elem_of_cons in Hin as [-> | Hin]; [exact Hb | exact (IH Hf Hin)].
Qed.

Lemma agents_updateAgents incoming s : agents (updateAgents incoming s) = incoming.
Proof.
  unfold updateAgents. cbn.
  destruct (selectedAgent s) as [sel|]; [|reflexivity].
  destruct (find _ incoming); reflexivity.
Qed.

(** C1 (as the source behaves).  A [world.delta] frame with an
    [actors_delta] list makes that list the registry: on the registry
    [{5, firm, active}] the delta [{5, bankrupt}] leaves an entity 5 with
    no [agent_type], not [{5, firm, bankrupt}], and an entity that the
    delta does not list is gone; the upsert of the specification gives
    [{5, firm, bankrupt}] and keeps the other entity. *)
Theorem world_delta_replaces_registry :
  (forall s delta tiles,
     agents (handleMessage (WorldDelta (Some delta) tiles) s) = delta) /\
  (let s1 := handleMessage (WorldDelta (Some [delta5]) None)
               (setAgents [firm5] initialState) in
   agents s1 = [delta5] /\
   delta5 !! "agent_type" = None /\
   upsertAll [delta5] [firm5] = [firm5_bankrupt] /\
   agents s1 <> [firm5_bankrupt]) /\
  (let s2 := handleMessage (WorldDelta (Some [delta5]) None)
               (setAgents [firm5; person6] initialState) in
   agents s2 = [delta5] /\
   upsertAll [delta5] [firm5; person6] = [firm5_bankrupt; person6] /\
   person6 ∉ agents s2).
Proof.
  split; [|split].
  - intros s delta tiles. apply agents_updateAgents.
  - cbn zeta. split; [reflexivity|]. split; [reflexivity|]. split.
    + vm_compute. reflexivity.
    + intros H.
      apply (f_equal (map (fun m : Agent => m !! "agent_type"))) in H.
      vm_compute in H. discriminate.
  - cbn zeta. split; [reflexivity|]. split.
    + vm_compute. reflexivity.
    + intros H. apply list_elem_of_singleton in H.
      apply (f_equal (fun m : Agent => m !! "agent_type")) in H.
      vm_compute in H. discriminate.
Qed.

(** C9.  When an agents update is applied while an agent is selected and
    the incoming list holds an agent with the selected agent's id, the
    selection becomes a record of that list (the first with that id), so
    the selection is an element of the registry after the update. *)
Theorem updateAgents_refreshes_selection
    (s : SimulationState) (incoming : list Agent) (selected a : Agent) :
  selectedAgent s = Some selected ->
  a ∈ incoming ->
  sameId a selected = true ->
  exists updated,
    selectedAgent (updateAgents incoming s) = Some updated /\
    find (fun b => sameId b selected) incoming = Some updated /\
    updated ∈ incoming /\
    updated ∈ agents (updateAgents incoming s) /\
    sameId updated selected = true.
Proof.
  intros Hsel Hin Hid.
  destruct (find (fun b => sameId b selected) incoming) as [u|] eqn:Hf.
  - exists u. destruct (find_some _ _ _ Hf) as [Hu Hp].
    rewrite agents_updateAgents.
    split; [|split; [reflexivity|split; [exact Hu|split; [exact Hu|exact Hp]]]].
    unfold updateAgents. cbn. rewrite Hsel, Hf. reflexivity.
  - pose proof (find_none _ _ _ Hf Hin) as Hn. cbn in Hn. congruence.
Qed.

(** After every update, a selection whose id is in the registry is itself
    a record of the registry. *)
Lemma selection_never_stale (s : SimulationState) (incoming : list Agent)
    (selected a : Agent) :
  selectedAgent (updateAgents incoming s) = Some selected ->
  a ∈ agents (updateAgents incoming s) ->
  sameId a selected = true ->
  selected ∈ agents (updateAgents incoming s).
Proof.
  rewrite agents_updateAgents. unfold updateAgents. cbn.
  destruct (selectedAgent s) as [sel|] eqn:Hsel; cbn.
  2:{ rewrite Hsel. discriminate. }
  destruct (find _ incoming) as [u|] eqn:Hf; cbn.
  - intros [= <-] _ _. apply (find_some _ _ _ Hf).
  - rewrite Hsel. intros [= <-] Hin Hid.
    pose proof (find_none _ _ _ Hf Hin) as Hn. cbn in Hn. congruence.
Qed.

Lemma selection_never_stale_witness :
  delta5 ∈ agents (updateAgents [person6; delta5]
                     (selectAgent (Some firm5) initialState)).
Proof.
  apply (selection_never_stale
           (selectAgent (Some firm5) initialState) [person6; delta5] delta5 delta5).
  - reflexivity.
  - apply list_elem_of_further, list_elem_of_here.
  - reflexivity.
Defined.

Lemma updateAgents_refreshes_selection_witness :
  exists updated,
    selectedAgent (updateAgents [person6; delta5]
                     (selectAgent (Some firm5) initialState)) = Some updated /\
    find (fun b => sameId b firm5) [person6; delta5] = Some updated /\
    updated ∈ [person6; delta5] /\
    updated ∈ agents (updateAgents [person6; delta5]
                        (selectAgent (Some firm5) initialState)) /\
    sameId updated firm5 = true.
Proof.
  apply (updateAgents_refreshes_selection
           (selectAgent (Some firm5) initialState) [person6; delta5] firm5 delta5).
  - reflexivity.
  - apply list_elem_of_further, list_elem_of_here.
  - reflexivity.
Defined.

End EntityRegistry.

Section ControlCommands.
Import Js SimulationStore UseSimulationControl.

Lemma fallback_nonempty (c : Command) : fallback c <> "".
Proof. destruct c; discriminate. Qed.

Lemma str_or_nonempty (m : option string) (d : string) : d <> "" -> str_or m d <> "".
Proof.
  intros Hd. unfold str_or. destruct m as [m|]; [|exact Hd].
  destruct (String.eqb m "") eqn:E; [exact Hd|].
  apply String.eqb_neq in E. exact E.
Qed.

(** C5.  For every control command whose API call rejects, the call
    returns to its caller (nothing is thrown); the store's
    [connectionError] is the rejection's message when that is a non-empty
    string and the command's fixed, non-empty fallback text otherwise, so
    never the empty string; every other field of the store is unchanged,
    and no query is invalidated. *)
Theorem rejected_command_sets_error (c : Command) (error : ApiError) (k : Control) :
  exists k',
    mutate c (Rejected error) k = Returned k' /\
    (forall m, message error = Some m -> m <> "" ->
       connectionError (store k') = Some m) /\
    (message error = None \/ message error = Some "" ->
       connectionError (store k') = Some (fallback c)) /\
    fallback c <> "" /\
    connectionError (store k') <> Some "" /\
    isConnected (store k') = isConnected (store k) /\
    simulationStatus (store k') = simulationStatus (store k) /\
    agents (store k') = agents (store k) /\
    metrics (store k') = metrics (store k) /\
    events (store k') = events (store k) /\
    selectedAgent (store k') = selectedAgent (store k) /\
    showLayers (store k') = showLayers (store k) /\
    camera (store k') = camera (store k) /\
    invalidated k' = invalidated k.
Proof.
  exists (onError c error k). split; [reflexivity|].
  split; [|split; [|split; [apply fallback_nonempty|split]]].
  - intros m Hm Hne. cbn. rewrite Hm. cbn.
    apply String.eqb_neq in Hne. rewrite Hne. reflexivity.
  - intros [Hm | Hm]; cbn; rewrite Hm; reflexivity.
  - cbn. intros [= H]. revert H. apply str_or_nonempty, fallback_nonempty.
  - repeat split.
Qed.

Lemma rejected_command_sets_error_witness :
  exists k',
    mutate (Play None) (Rejected {| message := None |})
      {| store := initialState; invalidated := [] |} = Returned k' /\
    connectionError (store k') = Some "播放失败".
Proof.
  destruct (rejected_command_sets_error (Play None) {| message := None |}
              {| store := initialState; invalidated := [] |})
    as (k' & Hm & _ & Hfallback & _).
  exists k'. split; [exact Hm | apply Hfallback; left; reflexivity].
Defined.

(** A rejection that carries a message, and one whose message is empty. *)
Example rejected_jump_messages :
  mutate (Jump 200) (Rejected {| message := Some "Network Error" |})
    {| store := initialState; invalidated := [] |} =
  Returned {| store := setConnectionError (Some "Network Error") initialState;
              invalidated := [] |} /\
  mutate (Jump 200) (Rejected {| message := Some "" |})
    {| store := initialState; invalidated := [] |} =
  Returned {| store := setConnectionError (Some "时间跳转失败") initialState;
              invalidated := [] |}.
Proof. split; reflexivity. Qed.

End ControlCommands.

Section TimeJump.
Import Js SimulationStore UseSimulationControl TimeBar Scenario JumpSpec.












(** What [parseInt] reads off the text of the input. *)
Example parseInt_examples :
  parseInt "50" = Some 50 /\ parseInt "  42px" = Some 42 /\
  parseInt "-3" = Some (-3) /\ parseInt "+7" = Some 7 /\
  parseInt "0x1F" = Some 31 /\ parseInt "1e3" = Some 1 /\
  parseInt "" = None /\ parseInt "abc" = None /\ parseInt "0x" = None.
Proof. repeat split; reflexivity. Qed.

(** A text that is not a number, or a negative one, issues nothing and
    leaves the input as it is. *)
Example handleJump_ignores_bad_input :
  handleJump {| jumpTarget := "abc"; showJumpInput := true |} (Some (statusAt 120)) =
    ({| jumpTarget := "abc"; showJumpInput := true |}, None) /\
  handleJump {| jumpTarget := "-3"; showJumpInput := true |} (Some (statusAt 120)) =
    ({| jumpTarget := "-3"; showJumpInput := true |}, None).
Proof. split; reflexivity. Qed.

End TimeJump.

Section CameraZoom.
Import SimulationStore WorldViewer.
Local Open Scope Q_scope.

(** The clamp alone gives the bounds, whatever number the product is. *)
Lemma clamp_in_range (product : Q) :
  0.1 <= Qmax 0.1 (Qmin 5 product) /\ Qmax 0.1 (Qmin 5 product) <= 5.
Proof.
  split.
  - apply Q.le_max_l.
  - apply Q.max_lub; [discriminate | apply Q.le_min_l].
Qed.

Lemma newZoom_in_range (deltaY currentZoom : Q) :
  0.1 <= newZoom deltaY currentZoom /\ newZoom deltaY currentZoom <= 5.
Proof. apply clamp_in_range. Qed.

Lemma handle_zoom_in_range (v : Viewer) (e : InputEvent) :
  0.1 <= zoom (camera (store v)) <= 5 ->
  0.1 <= zoom (camera (store (handle v e))) <= 5.
Proof.
  intros Hz. destruct e as [cx cy | cx cy | | deltaY]; cbn.
  - exact Hz.
  - destruct (isDragging v); cbn; exact Hz.
  - exact Hz.
  - apply newZoom_in_range.
Qed.

(** C7.  From any camera zoom within [0.1, 5], after any finite sequence
    of input events (wheel events of any [deltaY], between any mouse
    events), the zoom is within [0.1, 5]. *)
Theorem zoom_stays_in_range (v : Viewer) (es : list InputEvent) :
  0.1 <= zoom (camera (store v)) <= 5 ->
  0.1 <= zoom (camera (store (handleAll v es))) <= 5.
Proof.
  revert v. induction es as [|e es IH]; intros v Hz; [exact Hz|].
  cbn. apply IH, handle_zoom_in_range, Hz.
Qed.

Lemma zoom_stays_in_range_witness :
  0.1 <= zoom (camera (store (handleAll (setup initialState)
                                [Wheel 120; Wheel (-4000); MouseDown 3 4; Wheel 0]))) <= 5.
Proof.
  apply (zoom_stays_in_range (setup initialState)
           [Wheel 120; Wheel (-4000); MouseDown 3 4; Wheel 0]).
  split; discriminate.
Defined.

End CameraZoom.

Section DashboardReconnect.
Import Browser DashboardStore UseDashboardData.

(** The cleanup of the control-tower effect leaves every pending retry
    pending. *)
Lemma cleanup_keeps_timers (h : Hook) : timers (step h Unmount) = timers h.
Proof. cbn. unfold cleanup. destruct (wsRef h); reflexivity. Qed.

(** C3 (as the control-tower source behaves).  The channel opens and then
    closes, which schedules the retry; the unmount cleanup runs before the
    retry fires and leaves it pending; when it fires, [connectWebSocket]
    creates a second socket, and that channel opens and subscribes: the
    client that was shut down is connected again. *)
Theorem dashboard_cleanup_leaves_retry_pending (s : DashboardState) :
  let opened := step (mount s) (WsOpen 0) in
  let closed := step opened (WsClose 0) in
  let shut := step closed Unmount in
  let retried := step shut (TimerFire 1) in
  let reopened := step retried (WsOpen 1) in
  timers opened = ∅ /\
  timers closed = {[1%nat]} /\
  timers shut = {[1%nat]} /\
  sockets shut = [{| readyState := CLOSED; sent := [subscribeMessage] |}] /\
  sockets retried = [{| readyState := CLOSED; sent := [subscribeMessage] |}; newSocket] /\
  wsRef retried = Some 1%nat /\
  sockets reopened = [{| readyState := CLOSED; sent := [subscribeMessage] |};
                      {| readyState := OPEN; sent := [subscribeMessage] |}] /\
  isConnected (store shut) = false /\
  isConnected (store reopened) = true.
Proof.
  cbn zeta. repeat split; vm_compute; reflexivity.
Qed.

End DashboardReconnect.

Section ConnectionLifecycle.
Import Js Browser SimulationStore UseWebSocket HookInvariant Scenario.

Lemma inv_setConnectionState p c h : inv p h -> inv p (setConnectionState c h).
Proof.
  intros Hinv. unfold setConnectionState.
  destruct (mounted h) eqn:Hm; [|exact Hinv].
  destruct Hinv. split; cbn; assumption.
Qed.

Lemma inv_on_store p f h : inv p h -> inv p (on_store f h).
Proof. intros []. split; cbn; assumption. Qed.

Lemma inv_set_wsRef p r h : inv p h -> inv p (set_wsRef r h).
Proof. intros []. split; cbn; assumption. Qed.

Lemma inv_set_reconnectAttempts p n h :
  (n <= maxReconnectAttempts)%nat -> inv p h -> inv p (set_reconnectAttempts n h).
Proof. intros Hn []. split; cbn; assumption. Qed.

Lemma inv_set_sockets p l h :
  Forall sequenced l -> inv p h -> inv p (set_sockets l h).
Proof. intros Hl []. split; cbn; assumption. Qed.

(** Clearing a timer that is not the heartbeat. *)
Lemma inv_clearTimer p t h :
  (forall q, timers h !! t <> Some (HeartbeatInterval q)) ->
  inv p h -> inv p (clearTimer t h).
Proof.
  intros Ht [H1 H2 H3 R1 R2 H4 H5]. split; cbn; try assumption.
  - intros t' tm Hl. apply lookup_delete_Some in Hl as [_ Hl]. eauto.
  - intros i Hi. apply H2 in Hi. rewrite lookup_delete_ne; [exact Hi|].
    intros ->. exact (Ht _ Hi).
  - intros t' q Hl. apply lookup_delete_Some in Hl as [_ Hl]. eauto.
  - intros t' q Hr Hl. apply lookup_delete_Some in Hl as [_ Hl]. exact (R2 _ _ Hr Hl).
Qed.

(** [reconnectTimeoutRef.current = setTimeout(...)]. *)
Lemma inv_schedule p d h :
  inv p h ->
  inv p (set_reconnectTimeoutRef (Some (nextTimer h))
           (fst (setTimer (ReconnectTimeout d) h))).
Proof.
  intros [H1 H2 H3 R1 R2 H4 H5]. split; cbn; try assumption.
  - intros t tm Ht. apply lookup_insert_Some in Ht as [[<- _] | [_ Ht]]; [lia|].
    apply H1 in Ht. lia.
  - intros i Hi. apply H2 in Hi. rewrite lookup_insert_ne; [exact Hi|].
    intros <-. apply H1 in Hi. lia.
  - intros t q Ht. apply lookup_insert_Some in Ht as [[_ Hx] | [_ Ht]];
      [discriminate Hx | eauto].
  - intros t Ht. injection Ht as <-. lia.
  - intros t q Ht. injection Ht as <-. rewrite lookup_insert_eq. discriminate.
Qed.

(** After the cleanup of the heartbeat effect no heartbeat is registered,
    whatever [connectionState] is. *)
Lemma inv_clearHeartbeat p q h : inv p h -> inv q (clearHeartbeat h).
Proof.
  intros Hinv. unfold clearHeartbeat.
  destruct (heartbeatInterval h) as [i|] eqn:Hi;
    destruct Hinv as [H1 H2 H3 R1 R2 H4 H5]; split; cbn; try assumption.
  - intros t tm Ht. apply lookup_delete_Some in Ht as [_ Ht]. eauto.
  - intros i0 Hx. discriminate Hx.
  - intros t r Ht. apply lookup_delete_Some in Ht as [Hne Ht].
    apply H3 in Ht as (_ & Ht & _). congruence.
  - intros t r Hr Ht. apply lookup_delete_Some in Ht as [_ Ht]. exact (R2 _ _ Hr Ht).
  - intros t r Ht. apply H3 in Ht as (_ & Ht & _). congruence.
Qed.

Lemma no_heartbeat_after_clear p h t r :
  inv p h -> timers (clearHeartbeat h) !! t <> Some (HeartbeatInterval r).
Proof.
  intros Hinv Ht. unfold clearHeartbeat in Ht.
  destruct (heartbeatInterval h) as [i|] eqn:Hi;
    destruct Hinv as [H1 H2 H3 R1 R2 H4 H5]; cbn in Ht.
  - apply lookup_delete_Some in Ht as [Hne Ht].
    apply H3 in Ht as (_ & Ht & _). congruence.
  - apply H3 in Ht as (_ & Ht & _). congruence.
Qed.

Lemma ConnectionState_eqb_eq a b : ConnectionState_eqb a b = true <-> a = b.
Proof. destruct a, b; cbn; split; (reflexivity || discriminate). Qed.

Lemma connectionState_clearHeartbeat h :
  connectionState (clearHeartbeat h) = connectionState h.
Proof. unfold clearHeartbeat. destruct (heartbeatInterval h); reflexivity. Qed.

Lemma mounted_clearHeartbeat h : mounted (clearHeartbeat h) = mounted h.
Proof. unfold clearHeartbeat. destruct (heartbeatInterval h); reflexivity. Qed.

(** The heartbeat effect run on a hook with no heartbeat registered. *)
Lemma inv_heartbeatEffect p h :
  inv p h -> mounted h = true ->
  (forall t r, timers h !! t <> Some (HeartbeatInterval r)) ->
  wf (heartbeatEffect h).
Proof.
  intros Hinv Hm Hno. unfold wf, heartbeatEffect.
  destruct (connectionState h) eqn:Ecs.
  - rewrite Ecs. destruct Hinv as [H1 H2 H3 R1 R2 H4 H5]. split; try assumption.
    intros t r Ht. exfalso. exact (Hno t r Ht).
  - destruct Hinv as [H1 H2 H3 R1 R2 H4 H5]. split; cbn; try assumption.
    + intros t tm Ht. apply lookup_insert_Some in Ht as [[<- _] | [_ Ht]]; [lia|].
      apply H1 in Ht. lia.
    + intros i Hx. injection Hx as <-. apply lookup_insert_eq.
    + intros t r Ht. apply lookup_insert_Some in Ht as [[<- Hx] | [_ Ht]].
      * injection Hx as <-. repeat split; assumption.
      * exfalso. exact (Hno t r Ht).
    + intros t Ht. apply R1 in Ht. lia.
    + intros t r Hr Ht. apply lookup_insert_Some in Ht as [[<- _] | [_ Ht]].
      * apply R1 in Hr. lia.
      * exact (Hno t r Ht).
  - rewrite Ecs. destruct Hinv as [H1 H2 H3 R1 R2 H4 H5]. split; try assumption.
    intros t r Ht. exfalso. exact (Hno t r Ht).
Qed.

Lemma inv_commit p h : inv p h -> wf (commit p h).
Proof.
  intros Hinv. unfold commit.
  destruct (mounted h) eqn:Hm; cbn [andb].
  - destruct (ConnectionState_eqb p (connectionState h)) eqn:E; cbn [negb].
    + apply ConnectionState_eqb_eq in E. unfold wf. rewrite <- E. exact Hinv.
    + apply (inv_heartbeatEffect p).
      * apply (inv_clearHeartbeat p), Hinv.
      * rewrite mounted_clearHeartbeat. exact Hm.
      * intros t r. apply (no_heartbeat_after_clear p), Hinv.
  - unfold wf. destruct Hinv as [H1 H2 H3 R1 R2 H4 H5]. split; try assumption.
    intros t q Ht. apply H3 in Ht as (_ & _ & _ & Ht). congruence.
Qed.

(** *** Sockets *)

Lemma sequenced_newSocket : sequenced newSocket.
Proof. reflexivity. Qed.

Lemma sequenced_close sk : sequenced sk -> sequenced (close sk).
Proof.
  unfold sequenced, close. destruct (readyState sk) eqn:E; cbn; rewrite ?E; auto.
Qed.

Lemma sequenced_closed sk : sequenced sk -> sequenced (setReadyState CLOSED sk).
Proof. unfold sequenced. cbn. destruct (readyState sk); auto. Qed.

Lemma sequenced_opened sk :
  readyState sk = CONNECTING -> sequenced sk ->
  sequenced (send subscribeMessage (setReadyState OPEN sk)).
Proof.
  unfold sequenced. intros E. rewrite E. cbn. intros ->. exists []. reflexivity.
Qed.

Lemma sequenced_ping now sk : sequenced sk -> sequenced (send (Ping now) sk).
Proof.
  unfold sequenced, send. destruct (readyState sk) eqn:E; cbn; rewrite ?E; auto.
  intros [ts ->]. exists (ts ++ [now]). rewrite map_app. reflexivity.
Qed.

Lemma inv_on_socket p f ws h :
  (forall sk, sockets h !! ws = Some sk -> sequenced sk -> sequenced (f sk)) ->
  inv p h -> inv p (on_socket f ws h).
Proof.
  intros Hf Hinv. apply inv_set_sockets; [|exact Hinv].
  apply Forall_alter; [apply Hinv | exact Hf].
Qed.

(** *** Handlers *)

Lemma onopen_sockets ws f h :
  onopen ws (on_socket f ws h) =
  set_sockets (alter (send subscribeMessage ∘ f) ws (sockets h))
    (set_reconnectAttempts 0
       (on_store (setConnectionError None)
          (on_store (setConnected true) (setConnectionState connected h)))).
Proof.
  unfold onopen, on_socket, setConnectionState. rewrite <- list_alter_alter_eq.
  destruct h as [u m st cs wr rt ra hb sk tm nt]. cbn. destruct m; reflexivity.
Qed.

Lemma inv_onopen p ws h :
  readyStateOf h ws = Some CONNECTING ->
  inv p h -> inv p (onopen ws (on_socket (setReadyState OPEN) ws h)).
Proof.
  intros Hrs Hinv. rewrite onopen_sockets.
  apply inv_set_sockets.
  - apply Forall_alter; [apply Hinv|].
    intros sk Hsk Hseq. unfold readyStateOf in Hrs. rewrite Hsk in Hrs.
    injection Hrs as Hrs. apply sequenced_opened; assumption.
  - apply inv_set_reconnectAttempts; [unfold maxReconnectAttempts; lia|].
    apply inv_on_store, inv_on_store, inv_setConnectionState, Hinv.
Qed.

Lemma inv_onclose p h : inv p h -> inv p (onclose h).
Proof.
  intros Hinv. unfold onclose.
  pose proof (inv_on_store p (setConnected false) _
                (inv_setConnectionState p disconnected h Hinv)) as H2.
  set (h2 := on_store (setConnected false) (setConnectionState disconnected h)) in *.
  destruct (reconnectAttempts h2 <? maxReconnectAttempts)%nat eqn:E.
  - apply Nat.ltb_lt in E. cbn.
    apply (inv_schedule p reconnectDelay
             (set_reconnectAttempts (S (reconnectAttempts h2)) h2)).
    apply inv_set_reconnectAttempts; [lia | exact H2].
  - apply inv_on_store, H2.
Qed.

Lemma inv_connect p h : inv p h -> inv p (connect h).
Proof.
  intros Hinv. unfold connect.
  destruct (isOpen (sockets h) (wsRef h)); [exact Hinv|].
  pose proof (inv_setConnectionState p connecting h Hinv) as H1.
  destruct (validUrl _).
  - apply inv_set_wsRef, inv_set_sockets; [|exact H1].
    apply Forall_app. split; [apply H1|].
    constructor; [apply sequenced_newSocket | constructor].
  - apply inv_setConnectionState, inv_on_store, H1.
Qed.

Lemma inv_disconnect p h : inv p h -> inv p (disconnect h).
Proof.
  intros Hinv. unfold disconnect.
  apply inv_on_store, inv_setConnectionState.
  assert (H1 : inv p match reconnectTimeoutRef h with
                     | Some t => clearTimer t h
                     | None => h
                     end)
    by (destruct (reconnectTimeoutRef h) as [t|] eqn:Er;
        [apply inv_clearTimer; [intros q; apply (ref_not_heartbeat _ _ Hinv), Er|]|];
        exact Hinv).
  destruct (wsRef _) as [ws|]; [|exact H1].
  apply inv_set_wsRef, inv_on_socket; [|exact H1].
  intros sk _. apply sequenced_close.
Qed.

Lemma inv_sendPing p now h : inv p h -> inv p (sendMessage (Ping now) h).
Proof.
  intros Hinv. unfold sendMessage.
  destruct (isOpen _ _); [|exact Hinv].
  destruct (wsRef h) as [ws|]; [|exact Hinv].
  apply inv_on_socket; [|exact Hinv].
  intros sk _. apply sequenced_ping.
Qed.

Lemma inv_unmount p h : inv p h -> inv p (set_mounted false (clearHeartbeat h)).
Proof.
  intros Hinv. pose proof (no_heartbeat_after_clear p h) as Hno.
  destruct (inv_clearHeartbeat p p h Hinv) as [H1 H2 H3 R1 R2 H4 H5].
  split; cbn; try assumption.
  intros t r Ht. exfalso. exact (Hno t r Hinv Ht).
Qed.

Lemma inv_dispatch p h e : inv p h -> inv p (dispatch h e).
Proof.
  intros Hinv. destruct e as [ws | ws frame | ws | ws | t now | | | ]; cbn.
  - destruct (readyStateOf h ws) as [[]|] eqn:E; try exact Hinv.
    apply inv_onopen; assumption.
  - destruct (readyStateOf h ws) as [[]|]; try exact Hinv.
    destruct frame; [apply inv_on_store|]; exact Hinv.
  - destruct (readyStateOf h ws) as [[]|]; try exact Hinv; apply inv_on_store, Hinv.
  - destruct (readyStateOf h ws) as [[]|]; try exact Hinv;
      apply inv_onclose, inv_on_socket; try exact Hinv;
      intros sk _; apply sequenced_closed.
  - destruct (timers h !! t) as [[d|q]|] eqn:E; try exact Hinv.
    + apply inv_connect, inv_clearTimer; [|exact Hinv].
      intros q. rewrite E. discriminate.
    + apply inv_sendPing, Hinv.
  - apply inv_connect, Hinv.
  - apply inv_disconnect, Hinv.
  - destruct (mounted h); [|exact Hinv]. apply inv_disconnect, inv_unmount, Hinv.
Qed.

Lemma wf_step h e : wf h -> wf (step h e).
Proof. intros Hwf. apply inv_commit, inv_dispatch, Hwf. Qed.

Lemma wf_init u s : wf (init u s).
Proof.
  split.
  - intros t tm Ht. cbn in Ht. rewrite lookup_empty in Ht. discriminate.
  - intros i Hi. discriminate Hi.
  - intros t q Ht. cbn in Ht. rewrite lookup_empty in Ht. discriminate.
  - intros t Ht. discriminate Ht.
  - intros t q Ht. discriminate Ht.
  - cbn. unfold maxReconnectAttempts. lia.
  - constructor.
Qed.

Lemma wf_run h es : wf h -> wf (run h es).
Proof.
  revert h. induction es as [|e es IH]; intros h Hwf; [exact Hwf|].
  cbn. apply IH, wf_step, Hwf.
Qed.

Lemma wf_reachable u s es : wf (run (mount u s) es).
Proof. apply wf_run, wf_step, wf_init. Qed.

(** *** What a step does to the sockets *)

Lemma sockets_commit p h : sockets (commit p h) = sockets h.
Proof.
  unfold commit. destruct (_ && _); [|reflexivity].
  unfold heartbeatEffect, clearHeartbeat.
  destruct (heartbeatInterval h); cbn; destruct (connectionState h); reflexivity.
Qed.

Lemma sockets_setConnectionState c h : sockets (setConnectionState c h) = sockets h.
Proof. unfold setConnectionState. destruct (mounted h); reflexivity. Qed.

Lemma wsRef_setConnectionState c h : wsRef (setConnectionState c h) = wsRef h.
Proof. unfold setConnectionState. destruct (mounted h); reflexivity. Qed.

Lemma sockets_onclose h : sockets (onclose h) = sockets h.
Proof.
  unfold onclose. destruct (_ <? _)%nat; cbn; apply sockets_setConnectionState.
Qed.

Lemma sockets_connect h :
  sockets (connect h) = sockets h \/ sockets (connect h) = sockets h ++ [newSocket].
Proof.
  unfold connect. destruct (isOpen _ _); [left; reflexivity|].
  destruct (validUrl _); cbn.
  - right. rewrite sockets_setConnectionState. reflexivity.
  - left. rewrite sockets_setConnectionState. cbn. apply sockets_setConnectionState.
Qed.

Lemma sockets_disconnect h :
  sockets (disconnect h) =
  match wsRef h with
  | Some ws => alter close ws (sockets h)
  | None => sockets h
  end.
Proof.
  unfold disconnect. cbn. rewrite sockets_setConnectionState.
  destruct (reconnectTimeoutRef h); cbn; destruct (wsRef h); reflexivity.
Qed.

Lemma sockets_sendMessage e h :
  sockets (sendMessage e h) =
  match wsRef h with
  | Some ws => if isOpen (sockets h) (Some ws)
               then alter (send e) ws (sockets h) else sockets h
  | None => sockets h
  end.
Proof.
  unfold sendMessage. destruct (wsRef h) as [ws|]; [|reflexivity].
  destruct (isOpen _ _); reflexivity.
Qed.

Lemma isOpen_lookup l ws sk :
  isOpen l (Some ws) = true -> l !! ws = Some sk -> readyState sk = OPEN.
Proof.
  cbn. intros H Hsk. rewrite Hsk in H. destruct (readyState sk); (reflexivity || discriminate).
Qed.

Lemma send_open e sk : readyState sk = OPEN -> sent (send e sk) = sent sk ++ [e].
Proof. unfold send. intros ->. reflexivity. Qed.

Lemma sent_close sk : sent (close sk) = sent sk.
Proof. unfold close. destruct (readyState sk); reflexivity. Qed.

Lemma lookup_alter_cases {A} (f : A -> A) (l : list A) i j x y :
  l !! j = Some x -> alter f i l !! j = Some y ->
  (i = j /\ y = f x) \/ (i <> j /\ y = x).
Proof.
  intros Hx Hy. rewrite list_lookup_alter in Hy.
  destruct (decide (i = j)) as [->|Hne].
  - rewrite Hx in Hy. cbn in Hy. left. split; congruence.
  - right. split; congruence.
Qed.

Lemma step_emission h e ws sk sk' :
  wf h ->
  sockets h !! ws = Some sk ->
  sockets (step h e) !! ws = Some sk' ->
  emission h e ws sk sk'.
Proof.
  intros Hwf Hsk. unfold step. rewrite sockets_commit. unfold emission.
  destruct e as [ws0 | ws0 frame | ws0 | ws0 | t now | | | ]; cbn [dispatch].
  - destruct (readyStateOf h ws0) as [[]|] eqn:E; try (intros; left; congruence).
    rewrite onopen_sockets. cbn [sockets set_sockets]. intros Hsk'.
    destruct (lookup_alter_cases _ _ _ _ _ _ Hsk Hsk') as [[-> ->] | [_ ->]];
      [|left; reflexivity].
    unfold readyStateOf in E. rewrite Hsk in E. injection E as E.
    right. left. split; [reflexivity | split; [exact E | reflexivity]].
  - destruct (readyStateOf h ws0) as [[]|]; try (intros; left; congruence).
    destruct frame; cbn; intros; left; congruence.
  - destruct (readyStateOf h ws0) as [[]|]; cbn; intros; left; congruence.
  - destruct (readyStateOf h ws0) as [[]|]; try (intros; left; congruence);
      rewrite sockets_onclose; cbn [sockets on_socket set_sockets]; intros Hsk';
      destruct (lookup_alter_cases _ _ _ _ _ _ Hsk Hsk') as [[_ ->] | [_ ->]];
      left; reflexivity.
  - destruct (timers h !! t) as [[d|q]|] eqn:Et; try (intros; left; congruence).
    + destruct (sockets_connect (clearTimer t h)) as [-> | ->]; cbn.
      * intros; left; congruence.
      * rewrite lookup_app_l by (apply lookup_lt_Some in Hsk; exact Hsk).
        intros; left; congruence.
    + rewrite sockets_sendMessage.
      destruct (wsRef h) as [ws1|] eqn:Ew; [|intros; left; congruence].
      destruct (isOpen (sockets h) (Some ws1)) eqn:Eo; [|intros; left; congruence].
      intros Hsk'.
      destruct (lookup_alter_cases _ _ _ _ _ _ Hsk Hsk') as [[-> ->] | [_ ->]];
        [|left; reflexivity].
      pose proof (isOpen_lookup _ _ _ Eo Hsk) as Ho.
      destruct (heartbeat_only _ _ Hwf t q Et) as (-> & _ & Hc & Hm).
      right. right. exists t, now.
      repeat split; try assumption. apply send_open, Ho.
  - destruct (sockets_connect h) as [-> | ->].
    + intros; left; congruence.
    + rewrite lookup_app_l by (apply lookup_lt_Some in Hsk; exact Hsk).
      intros; left; congruence.
  - rewrite sockets_disconnect.
    destruct (wsRef h) as [ws1|]; [|intros; left; congruence].
    intros Hsk'.
    destruct (lookup_alter_cases _ _ _ _ _ _ Hsk Hsk') as [[_ ->] | [_ ->]];
      left; [apply sent_close | reflexivity].
  - destruct (mounted h); [|intros; left; congruence].
    rewrite sockets_disconnect.
    assert (Hw : wsRef (set_mounted false (clearHeartbeat h)) = wsRef h)
      by (unfold clearHeartbeat; destruct (heartbeatInterval h); reflexivity).
    assert (Hs : sockets (set_mounted false (clearHeartbeat h)) = sockets h)
      by (unfold clearHeartbeat; destruct (heartbeatInterval h); reflexivity).
    rewrite Hw, Hs.
    destruct (wsRef h) as [ws1|]; [|intros; left; congruence].
    intros Hsk'.
    destruct (lookup_alter_cases _ _ _ _ _ _ Hsk Hsk') as [[_ ->] | [_ ->]];
      left; [apply sent_close | reflexivity].
Qed.

(** *** The heartbeat is registered while the hook is connected *)

Lemma mounted_setConnectionState c h : mounted (setConnectionState c h) = mounted h.
Proof. unfold setConnectionState. destruct (mounted h) eqn:E; cbn; congruence. Qed.

Lemma heartbeatInterval_setConnectionState c h :
  heartbeatInterval (setConnectionState c h) = heartbeatInterval h.
Proof. unfold setConnectionState. destruct (mounted h); reflexivity. Qed.

Lemma connect_frame h :
  mounted (connect h) = mounted h /\
  heartbeatInterval (connect h) = heartbeatInterval h.
Proof.
  unfold connect. destruct (isOpen _ _); [split; reflexivity|].
  destruct (validUrl _); cbn;
    rewrite ?mounted_setConnectionState, ?heartbeatInterval_setConnectionState; cbn;
    rewrite ?mounted_setConnectionState, ?heartbeatInterval_setConnectionState;
    split; reflexivity.
Qed.

Lemma disconnect_frame h :
  mounted (disconnect h) = mounted h /\
  heartbeatInterval (disconnect h) = heartbeatInterval h.
Proof.
  unfold disconnect. cbn.
  rewrite mounted_setConnectionState, heartbeatInterval_setConnectionState.
  destruct (reconnectTimeoutRef h); cbn; destruct (wsRef h); split; reflexivity.
Qed.

Lemma onclose_frame h :
  mounted (onclose h) = mounted h /\
  heartbeatInterval (onclose h) = heartbeatInterval h.
Proof.
  unfold onclose. destruct (_ <? _)%nat; cbn;
    rewrite mounted_setConnectionState, heartbeatInterval_setConnectionState;
    split; reflexivity.
Qed.

Lemma onopen_frame ws h :
  mounted (onopen ws h) = mounted h /\
  heartbeatInterval (onopen ws h) = heartbeatInterval h.
Proof.
  unfold onopen. cbn.
  rewrite mounted_setConnectionState, heartbeatInterval_setConnectionState.
  split; reflexivity.
Qed.

Lemma sendMessage_frame e h :
  mounted (sendMessage e h) = mounted h /\
  heartbeatInterval (sendMessage e h) = heartbeatInterval h.
Proof.
  unfold sendMessage. destruct (isOpen _ _); [|split; reflexivity].
  destruct (wsRef h); split; reflexivity.
Qed.

Lemma dispatch_frame h e :
  mounted (dispatch h e) = true ->
  mounted h = true /\ heartbeatInterval (dispatch h e) = heartbeatInterval h.
Proof.
  destruct e as [ws | ws frame | ws | ws | t now | | | ]; cbn [dispatch].
  - destruct (readyStateOf h ws) as [[]|]; try (intros; split; [assumption|reflexivity]).
    destruct (onopen_frame ws (on_socket (setReadyState OPEN) ws h)) as [-> ->].
    intros; split; [assumption|reflexivity].
  - destruct (readyStateOf h ws) as [[]|]; try (intros; split; [assumption|reflexivity]).
    destruct frame; intros; split; (assumption || reflexivity).
  - destruct (readyStateOf h ws) as [[]|]; intros; split; (assumption || reflexivity).
  - destruct (readyStateOf h ws) as [[]|]; try (intros; split; [assumption|reflexivity]);
      destruct (onclose_frame (on_socket (setReadyState CLOSED) ws h)) as [-> ->];
      intros; split; (assumption || reflexivity).
  - destruct (timers h !! t) as [[d|q]|]; try (intros; split; [assumption|reflexivity]).
    + destruct (connect_frame (clearTimer t h)) as [-> ->].
      intros; split; (assumption || reflexivity).
    + destruct (sendMessage_frame (Ping now) h) as [-> ->].
      intros; split; (assumption || reflexivity).
  - destruct (connect_frame h) as [-> ->]. intros; split; (assumption || reflexivity).
  - destruct (disconnect_frame h) as [-> ->]. intros; split; (assumption || reflexivity).
  - destruct (mounted h) eqn:Hm; [|intros Hx; congruence].
    destruct (disconnect_frame (set_mounted false (clearHeartbeat h))) as [-> _].
    cbn. intros Hx. discriminate Hx.
Qed.

Lemma beating_dispatch p h e : beating p h -> beating p (dispatch h e).
Proof.
  intros Hb Hm Hp. destruct (dispatch_frame h e Hm) as [Hm' ->]. exact (Hb Hm' Hp).
Qed.

Lemma beating_commit p h : beating p h -> beating (connectionState (commit p h)) (commit p h).
Proof.
  intros Hb. unfold commit.
  destruct (mounted h) eqn:Hm; cbn [andb].
  - destruct (ConnectionState_eqb p (connectionState h)) eqn:E; cbn [negb].
    + apply ConnectionState_eqb_eq in E. rewrite <- E. exact Hb.
    + unfold heartbeatEffect. rewrite connectionState_clearHeartbeat.
      destruct (connectionState h) eqn:Ecs; intros _;
        rewrite ?connectionState_clearHeartbeat, ?Ecs; try discriminate.
      intros _. cbn. eauto.
  - intros Hm'. congruence.
Qed.

Lemma steady_step h e : steady h -> steady (step h e).
Proof.
  intros [Hwf Hb]. split; [apply wf_step, Hwf|].
  apply beating_commit, beating_dispatch, Hb.
Qed.

Lemma steady_reachable u s es : steady (run (mount u s) es).
Proof.
  assert (H0 : steady (init u s)) by (split; [apply wf_init | intros _; discriminate]).
  assert (Hrun : forall es h, steady h -> steady (run h es)).
  { clear. induction es as [|e es IH]; intros h Hh; [exact Hh|].
    cbn. apply IH, steady_step, Hh. }
  apply Hrun, steady_step, H0.
Qed.

(** *** What the commit leaves alone *)

Lemma commit_frame p h :
  store (commit p h) = store h /\
  reconnectAttempts (commit p h) = reconnectAttempts h /\
  reconnectTimeoutRef (commit p h) = reconnectTimeoutRef h /\
  connectionState (commit p h) = connectionState h.
Proof.
  unfold commit. destruct (_ && _); [|repeat split].
  unfold heartbeatEffect. rewrite connectionState_clearHeartbeat.
  assert (Hc : store (clearHeartbeat h) = store h /\
               reconnectAttempts (clearHeartbeat h) = reconnectAttempts h /\
               reconnectTimeoutRef (clearHeartbeat h) = reconnectTimeoutRef h /\
               connectionState (clearHeartbeat h) = connectionState h)
    by (unfold clearHeartbeat; destruct (heartbeatInterval h); repeat split).
  destruct (connectionState h); exact Hc.
Qed.

Lemma commit_reconnect_timers p h t d :
  inv p h ->
  timers (commit p h) !! t = Some (ReconnectTimeout d) <->
  timers h !! t = Some (ReconnectTimeout d).
Proof.
  intros Hinv. unfold commit. destruct (_ && _); [|reflexivity].
  assert (Hc : timers (clearHeartbeat h) !! t = Some (ReconnectTimeout d) <->
               timers h !! t = Some (ReconnectTimeout d)).
  { unfold clearHeartbeat. destruct (heartbeatInterval h) as [i|] eqn:Hi; [|reflexivity].
    cbn. rewrite lookup_delete_Some. split; [intros [_ H]; exact H|].
    intros H. split; [|exact H]. intros ->.
    rewrite (heartbeat_registered _ _ Hinv _ Hi) in H. discriminate. }
  unfold heartbeatEffect.
  destruct (connectionState (clearHeartbeat h)); try exact Hc.
  cbn. rewrite lookup_insert_Some, <- Hc. split.
  - intros [[_ Hx] | [_ H]]; [discriminate Hx | exact H].
  - intros H. right. split; [|exact H]. intros <-.
    apply (timers_fresh _ _ (inv_clearHeartbeat p p h Hinv)) in H. lia.
Qed.

(** *** The close handler *)

Lemma onclose_retry h :
  (reconnectAttempts h < maxReconnectAttempts)%nat ->
  reconnectAttempts (onclose h) = S (reconnectAttempts h) /\
  reconnectTimeoutRef (onclose h) = Some (nextTimer h) /\
  timers (onclose h) = <[nextTimer h := ReconnectTimeout reconnectDelay]> (timers h).
Proof.
  intros Hlt. apply Nat.ltb_lt in Hlt. unfold onclose, setConnectionState.
  destruct h as [u m st cs wr rt ra hb sk tm nt]. cbn in *.
  destruct m; cbn; rewrite Hlt; cbn; repeat split.
Qed.

Lemma onclose_terminal h :
  (maxReconnectAttempts <= reconnectAttempts h)%nat ->
  reconnectAttempts (onclose h) = reconnectAttempts h /\
  reconnectTimeoutRef (onclose h) = reconnectTimeoutRef h /\
  timers (onclose h) = timers h /\
  connectionError (store (onclose h)) = Some "连接失败，已达到最大重试次数".
Proof.
  intros Hge. apply Nat.ltb_ge in Hge. unfold onclose, setConnectionState.
  destruct h as [u m st cs wr rt ra hb sk tm nt]. cbn in *.
  destruct m; cbn; rewrite Hge; cbn; repeat split.
Qed.

Lemma step_close h ws :
  live h ws = true ->
  step h (WsClose ws) =
  commit (connectionState h) (onclose (on_socket (setReadyState CLOSED) ws h)).
Proof.
  unfold step, live. cbn [dispatch].
  destruct (readyStateOf h ws) as [[]|]; (reflexivity || discriminate).
Qed.

Lemma step_open h ws :
  readyStateOf h ws = Some CONNECTING ->
  step h (WsOpen ws) =
  commit (connectionState h) (onopen ws (on_socket (setReadyState OPEN) ws h)).
Proof. unfold step. cbn [dispatch]. intros ->. reflexivity. Qed.

(** C4.  In every run of the hook: the attempt counter never exceeds the
    bound; it is 0 right after an open event; a close event that finds it
    below the bound increments it by exactly 1 and schedules one
    reconnect, under a fresh handle that the hook keeps; a close event
    that finds it at the bound leaves it there, schedules no reconnect,
    and sets the terminal connection error. *)
Theorem reconnect_attempts_counted
    (u : Url) (s : SimulationState) (es : list Event) (ws : nat) :
  let h := run (mount u s) es in
  (reconnectAttempts h <= maxReconnectAttempts)%nat /\
  (readyStateOf h ws = Some CONNECTING ->
     reconnectAttempts (step h (WsOpen ws)) = 0%nat) /\
  (live h ws = true ->
   (reconnectAttempts h < maxReconnectAttempts)%nat ->
     reconnectAttempts (step h (WsClose ws)) = S (reconnectAttempts h) /\
     reconnectTimeoutRef (step h (WsClose ws)) = Some (nextTimer h) /\
     timers h !! nextTimer h = None /\
     timers (step h (WsClose ws)) !! nextTimer h = Some (ReconnectTimeout reconnectDelay)) /\
  (live h ws = true ->
   reconnectAttempts h = maxReconnectAttempts ->
     reconnectAttempts (step h (WsClose ws)) = maxReconnectAttempts /\
     reconnectTimeoutRef (step h (WsClose ws)) = reconnectTimeoutRef h /\
     (forall t d, timers (step h (WsClose ws)) !! t = Some (ReconnectTimeout d) ->
                  timers h !! t = Some (ReconnectTimeout d)) /\
     connectionError (store (step h (WsClose ws))) =
       Some "连接失败，已达到最大重试次数").
Proof.
  intros h. pose proof (wf_reachable u s es) as Hwf. fold h in Hwf.
  split; [apply Hwf|]. split; [|split].
  - intros Hc. rewrite (step_open _ _ Hc).
    destruct (commit_frame (connectionState h)
                (onopen ws (on_socket (setReadyState OPEN) ws h))) as (_ & -> & _).
    reflexivity.
  - intros Hl Hlt. rewrite (step_close _ _ Hl).
    set (h1 := on_socket (setReadyState CLOSED) ws h).
    assert (Hinv1 : inv (connectionState h) h1).
    { apply inv_on_socket; [|exact Hwf]. intros sk _. apply sequenced_closed. }
    destruct (onclose_retry h1 Hlt) as (Ha & Hr & Ht).
    destruct (commit_frame (connectionState h) (onclose h1)) as (_ & -> & -> & _).
    split; [exact Ha|]. split; [exact Hr|].
    assert (Hnone : timers h !! nextTimer h = None).
    { destruct (timers h !! nextTimer h) as [tm|] eqn:E; [|reflexivity].
      apply (timers_fresh _ _ Hwf) in E. lia. }
    split; [exact Hnone|].
    apply (commit_reconnect_timers (connectionState h) (onclose h1)).
    + apply inv_onclose, Hinv1.
    + rewrite Ht. apply lookup_insert_eq.
  - intros Hl Heq. rewrite (step_close _ _ Hl).
    set (h1 := on_socket (setReadyState CLOSED) ws h).
    assert (Hinv1 : inv (connectionState h) h1).
    { apply inv_on_socket; [|exact Hwf]. intros sk _. apply sequenced_closed. }
    assert (Hge : (maxReconnectAttempts <= reconnectAttempts h1)%nat)
      by (cbn; lia).
    destruct (onclose_terminal h1 Hge) as (Ha & Hr & Ht & He).
    destruct (commit_frame (connectionState h) (onclose h1)) as (-> & -> & -> & _).
    split; [rewrite Ha; exact Heq|]. split; [exact Hr|]. split; [|exact He].
    intros t d Hl'.
    apply (commit_reconnect_timers (connectionState h) (onclose h1)) in Hl';
      [|apply inv_onclose, Hinv1].
    rewrite Ht in Hl'. exact Hl'.
Qed.

(** *** The heartbeat *)

Lemma open_sends_subscribe h ws :
  wf h -> readyStateOf h ws = Some CONNECTING ->
  sockets (step h (WsOpen ws)) !! ws =
    Some {| readyState := OPEN; sent := [subscribeMessage] |}.
Proof.
  intros Hwf Hc. rewrite (step_open _ _ Hc), sockets_commit, onopen_sockets.
  cbn [sockets set_sockets]. rewrite list_lookup_alter_eq.
  unfold readyStateOf in Hc.
  destruct (sockets h !! ws) as [sk|] eqn:Hsk; [|discriminate].
  injection Hc as Hc.
  pose proof (sockets_sequenced _ _ Hwf) as Hall.
  rewrite Forall_lookup in Hall. specialize (Hall ws sk Hsk).
  unfold sequenced in Hall. rewrite Hc in Hall.
  destruct sk as [rs st]. cbn in *. subst. reflexivity.
Qed.

(** The heartbeat interval firing while the socket of [wsRef] is open:
    one ping with the time of the clock is appended to what that socket
    has sent, and no other socket is touched. *)
Lemma heartbeat_fires_ping h t p now ws sk :
  timers h !! t = Some (HeartbeatInterval p) ->
  wsRef h = Some ws -> sockets h !! ws = Some sk -> readyState sk = OPEN ->
  sockets (step h (TimerFire t now)) !! ws =
    Some {| readyState := OPEN; sent := sent sk ++ [Ping now] |} /\
  (forall ws', ws' <> ws ->
     sockets (step h (TimerFire t now)) !! ws' = sockets h !! ws').
Proof.
  intros Ht Hws Hsk Hr. unfold step. cbn [dispatch]. rewrite Ht.
  rewrite sockets_commit, sockets_sendMessage, Hws.
  assert (Ho : isOpen (sockets h) (Some ws) = true).
  { unfold isOpen. rewrite Hsk, Hr. reflexivity. }
  rewrite Ho. split.
  - rewrite list_lookup_alter_eq, Hsk. cbn [fmap option_fmap option_map].
    unfold send. rewrite Hr. reflexivity.
  - intros ws' Hne. apply list_lookup_alter_ne. congruence.
Qed.

(** The open event of the socket of [wsRef] on a mounted hook. *)
Lemma open_current h ws :
  mounted h = true -> wsRef h = Some ws -> readyStateOf h ws = Some CONNECTING ->
  mounted (step h (WsOpen ws)) = true /\
  connectionState (step h (WsOpen ws)) = connected /\
  wsRef (step h (WsOpen ws)) = Some ws.
Proof.
  intros Hm Hws Hc. rewrite (step_open _ _ Hc), onopen_sockets.
  destruct h as [u m s c w r a hb sk tm nt]. cbn in Hm, Hws. subst m w.
  unfold commit, setConnectionState, heartbeatEffect, clearHeartbeat.
  destruct c, hb; cbn; auto.
Qed.

(** C8.  In every run of the hook: a socket that is connecting has sent
    nothing, an open socket has sent the subscribe envelope once, first,
    and pings after it, and so has every socket that ever sent anything;
    the open event of a socket is what sends its subscribe envelope; an
    event adds to what a socket has sent only that subscribe envelope or,
    when it is the heartbeat interval firing in a connected, mounted hook,
    one ping on the open socket of [wsRef]; a heartbeat interval is
    registered only while the state is connected, with a period of 30000
    milliseconds, there is at most one, and a mounted hook whose state is
    connected has it registered.  Each firing of the heartbeat interval
    while the socket of [wsRef] is open does send a ping: exactly one,
    with the time of the clock, appended to what that socket has sent,
    and nothing on any other socket.  And when the socket of [wsRef]
    opens on a mounted hook, the state becomes connected, the interval of
    30000 milliseconds is registered, and its firing sends the ping that
    follows the subscribe envelope. *)
Theorem subscribe_once_then_pings
    (u : Url) (s : SimulationState) (es : list Event) :
  let h := run (mount u s) es in
  (forall ws sk, sockets h !! ws = Some sk ->
     (readyState sk = CONNECTING -> sent sk = []) /\
     (readyState sk = OPEN ->
        exists ts, sent sk = subscribeMessage :: map Ping ts) /\
     (sent sk = [] \/ exists ts, sent sk = subscribeMessage :: map Ping ts)) /\
  (forall ws, readyStateOf h ws = Some CONNECTING ->
     sockets (step h (WsOpen ws)) !! ws =
       Some {| readyState := OPEN; sent := [subscribeMessage] |}) /\
  (forall e ws sk sk',
     sockets h !! ws = Some sk ->
     sockets (step h e) !! ws = Some sk' ->
     sent sk' = sent sk \/
     (e = WsOpen ws /\ readyState sk = CONNECTING /\
      sent sk' = sent sk ++ [subscribeMessage]) \/
     (exists t now,
        e = TimerFire t now /\
        timers h !! t = Some (HeartbeatInterval heartbeatPeriod) /\
        connectionState h = connected /\ mounted h = true /\
        wsRef h = Some ws /\ readyState sk = OPEN /\
        sent sk' = sent sk ++ [Ping now])) /\
  (forall t p, timers h !! t = Some (HeartbeatInterval p) ->
     p = 30000 /\ connectionState h = connected /\ heartbeatInterval h = Some t) /\
  (mounted h = true -> connectionState h = connected ->
     exists t, heartbeatInterval h = Some t /\
               timers h !! t = Some (HeartbeatInterval 30000)) /\
  (forall t p now ws sk,
     timers h !! t = Some (HeartbeatInterval p) ->
     wsRef h = Some ws -> sockets h !! ws = Some sk -> readyState sk = OPEN ->
     sockets (step h (TimerFire t now)) !! ws =
       Some {| readyState := OPEN; sent := sent sk ++ [Ping now] |} /\
     (forall ws', ws' <> ws ->
        sockets (step h (TimerFire t now)) !! ws' = sockets h !! ws')) /\
  (forall ws now,
     mounted h = true -> wsRef h = Some ws -> readyStateOf h ws = Some CONNECTING ->
     connectionState (step h (WsOpen ws)) = connected /\
     exists t,
       timers (step h (WsOpen ws)) !! t = Some (HeartbeatInterval 30000) /\
       sockets (step (step h (WsOpen ws)) (TimerFire t now)) !! ws =
         Some {| readyState := OPEN; sent := [subscribeMessage; Ping now] |}).
Proof.
  intros h. destruct (steady_reachable u s es) as [Hwf Hb]. fold h in Hwf, Hb.
  split; [|split; [|split; [|split; [|split; [|split]]]]].
  - intros ws sk Hsk.
    pose proof (sockets_sequenced _ _ Hwf) as Hall.
    rewrite Forall_lookup in Hall. specialize (Hall ws sk Hsk).
    unfold sequenced, subscribedThenPings in Hall.
    destruct (readyState sk); repeat split; intros; (discriminate || auto).
  - intros ws Hc. exact (open_sends_subscribe h ws Hwf Hc).
  - intros e ws sk sk' Hsk Hsk'. exact (step_emission h e ws sk sk' Hwf Hsk Hsk').
  - intros t p Ht. destruct (heartbeat_only _ _ Hwf t p Ht) as (-> & Hi & Hc & _).
    repeat split; assumption.
  - intros Hm Hc. destruct (Hb Hm Hc) as [t Ht]. exists t. split; [exact Ht|].
    exact (heartbeat_registered _ _ Hwf t Ht).
  - intros t p now ws sk. apply heartbeat_fires_ping.
  - intros ws now Hm Hws Hc.
    destruct (open_current h ws Hm Hws Hc) as (Hm1 & Hc1 & Hws1).
    split; [exact Hc1|].
    assert (Hsteady : steady (step h (WsOpen ws)))
      by (apply steady_step; split; assumption).
    destruct Hsteady as [Hwf1 Hb1].
    destruct (Hb1 Hm1 Hc1) as [t Ht]. exists t.
    pose proof (heartbeat_registered _ _ Hwf1 t Ht) as Hreg.
    split; [exact Hreg|].
    pose proof (open_sends_subscribe h ws Hwf Hc) as Hsk1.
    destruct (heartbeat_fires_ping _ t _ now ws _ Hreg Hws1 Hsk1 eq_refl) as [Hping _].
    exact Hping.
Qed.

(** *** Shutdown after a close, in the world viewer *)

Lemma commit_same h : commit (connectionState h) h = h.
Proof.
  unfold commit.
  assert (E : ConnectionState_eqb (connectionState h) (connectionState h) = true)
    by (apply ConnectionState_eqb_eq; reflexivity).
  rewrite E. cbn. rewrite andb_false_r. reflexivity.
Qed.

Lemma commit_no_new_reconnect p h t d :
  timers (commit p h) !! t = Some (ReconnectTimeout d) ->
  timers h !! t = Some (ReconnectTimeout d).
Proof.
  unfold commit. destruct (_ && _); [|intros H; exact H].
  assert (Hc : timers (clearHeartbeat h) !! t = Some (ReconnectTimeout d) ->
               timers h !! t = Some (ReconnectTimeout d)).
  { unfold clearHeartbeat. destruct (heartbeatInterval h); [|intros H; exact H].
    cbn. rewrite lookup_delete_Some. intros [_ H]. exact H. }
  unfold heartbeatEffect. destruct (connectionState (clearHeartbeat h)); try exact Hc.
  cbn. rewrite lookup_insert_Some. intros [[_ Hx] | [_ H]]; [discriminate Hx | auto].
Qed.

Lemma timers_disconnect h :
  timers (disconnect h) =
  match reconnectTimeoutRef h with
  | Some t => delete t (timers h)
  | None => timers h
  end.
Proof.
  unfold disconnect, setConnectionState.
  destruct h as [u m st cs wr rt ra hb sk tm nt]. cbn.
  destruct rt, wr, m; reflexivity.
Qed.

Lemma closed_alter_close ws l :
  Forall (fun sk => readyState sk = CLOSED) l -> alter close ws l = l.
Proof.
  intros Hall. apply list_eq. intros i. rewrite list_lookup_alter.
  destruct (decide (ws = i)) as [->|]; [|reflexivity].
  destruct (l !! i) as [sk|] eqn:E; [|reflexivity].
  rewrite Forall_lookup in Hall. specialize (Hall i sk E).
  cbn. unfold close. rewrite Hall. reflexivity.
Qed.

Lemma readyStateOf_closed h ws :
  Forall (fun sk => readyState sk = CLOSED) (sockets h) ->
  readyStateOf h ws = Some CLOSED \/ readyStateOf h ws = None.
Proof.
  intros Hall. unfold readyStateOf.
  destruct (sockets h !! ws) as [sk|] eqn:E; [|right; reflexivity].
  rewrite Forall_lookup in Hall. left. cbn. rewrite (Hall ws sk E). reflexivity.
Qed.

Lemma isOpen_closed l r :
  Forall (fun sk => readyState sk = CLOSED) l -> isOpen l r = false.
Proof.
  intros Hall. unfold isOpen. destruct r as [ws|]; [|reflexivity].
  destruct (l !! ws) as [sk|] eqn:E; [|reflexivity].
  rewrite Forall_lookup in Hall. rewrite (Hall ws sk E). reflexivity.
Qed.

Lemma quiet_disconnect h : quiet h -> quiet (disconnect h).
Proof.
  intros [Hs Ht]. split.
  - rewrite sockets_disconnect. destruct (wsRef h); [|exact Hs].
    rewrite closed_alter_close; assumption.
  - intros t d. rewrite timers_disconnect.
    destruct (reconnectTimeoutRef h); [|apply Ht].
    rewrite lookup_delete_Some. intros [_ H]. exact (Ht _ _ H).
Qed.

Lemma quiet_commit p h : quiet h -> quiet (commit p h).
Proof.
  intros [Hs Ht]. split; [rewrite sockets_commit; exact Hs|].
  intros t d H. apply commit_no_new_reconnect in H. exact (Ht _ _ H).
Qed.

Lemma quiet_step h e : quiet h -> e <> CallConnect -> quiet (step h e).
Proof.
  intros Hq Hne. pose proof Hq as [Hs Ht]. unfold step. apply quiet_commit.
  destruct e as [ws | ws frame | ws | ws | t now | | | ]; cbn [dispatch].
  - destruct (readyStateOf_closed h ws Hs) as [-> | ->]; exact Hq.
  - destruct (readyStateOf_closed h ws Hs) as [-> | ->]; exact Hq.
  - destruct (readyStateOf_closed h ws Hs) as [-> | ->]; exact Hq.
  - destruct (readyStateOf_closed h ws Hs) as [-> | ->]; exact Hq.
  - destruct (timers h !! t) as [[d|q]|] eqn:E; [|unfold sendMessage|exact Hq].
    + exfalso. exact (Ht _ _ E).
    + rewrite (isOpen_closed _ _ Hs). exact Hq.
  - congruence.
  - apply quiet_disconnect, Hq.
  - destruct (mounted h); [|exact Hq]. apply quiet_disconnect.
    split; cbn.
    + unfold clearHeartbeat. destruct (heartbeatInterval h); exact Hs.
    + intros t d. unfold clearHeartbeat. destruct (heartbeatInterval h); cbn; [|apply Ht].
      rewrite lookup_delete_Some. intros [_ H]. exact (Ht _ _ H).
Qed.

Lemma quiet_run h es :
  quiet h -> Forall (fun e => e <> CallConnect) es ->
  quiet (run h es) /\ length (sockets (run h es)) = length (sockets h).
Proof.
  revert h. induction es as [|e es IH]; intros h Hq Hes; [split; [exact Hq|reflexivity]|].
  apply Forall_cons in Hes as [He Hes].
  change (run h (e :: es)) with (run (step h e) es).
  destruct (IH (step h e) (quiet_step h e Hq He) Hes) as [Hq' Hlen].
  split; [exact Hq'|]. rewrite Hlen.
  destruct Hq as [Hs Ht]. unfold step. rewrite sockets_commit.
  destruct e as [ws | ws frame | ws | ws | t now | | | ]; cbn [dispatch].
  - destruct (readyStateOf_closed h ws Hs) as [-> | ->]; reflexivity.
  - destruct (readyStateOf_closed h ws Hs) as [-> | ->]; reflexivity.
  - destruct (readyStateOf_closed h ws Hs) as [-> | ->]; reflexivity.
  - destruct (readyStateOf_closed h ws Hs) as [-> | ->]; reflexivity.
  - destruct (timers h !! t) as [[d|q]|] eqn:E; [|unfold sendMessage|reflexivity].
    + exfalso. exact (Ht _ _ E).
    + rewrite (isOpen_closed _ _ Hs). reflexivity.
  - congruence.
  - rewrite sockets_disconnect. destruct (wsRef h); [|reflexivity]. apply length_alter.
  - destruct (mounted h); [|reflexivity]. rewrite sockets_disconnect.
    destruct (wsRef _); [rewrite length_alter|];
      unfold clearHeartbeat; destruct (heartbeatInterval h); reflexivity.
Qed.

(** The state a close event leaves: the closed socket was the only one
    that was not closed, and at most the retry the handler scheduled is
    pending, under the handle in [reconnectTimeoutRef]. *)
Lemma after_close h ws :
  live h ws = true ->
  (forall ws' sk, sockets h !! ws' = Some sk -> ws' <> ws -> readyState sk = CLOSED) ->
  (forall t d, timers h !! t <> Some (ReconnectTimeout d)) ->
  let h' := step h (WsClose ws) in
  Forall (fun sk => readyState sk = CLOSED) (sockets h') /\
  length (sockets h') = length (sockets h) /\
  (forall t d, timers h' !! t = Some (ReconnectTimeout d) ->
               reconnectTimeoutRef h' = Some t).
Proof.
  intros Hl Hothers Hno h'. subst h'. rewrite (step_close _ _ Hl).
  rewrite sockets_commit, sockets_onclose. cbn [sockets on_socket set_sockets].
  split; [|split].
  - rewrite Forall_lookup. intros i sk Hi. rewrite list_lookup_alter in Hi.
    destruct (decide (ws = i)) as [->|Hne].
    + destruct (sockets h !! i); [|discriminate]. cbn in Hi. injection Hi as <-. reflexivity.
    + apply (Hothers i sk Hi). congruence.
  - apply length_alter.
  - intros t d Ht. apply commit_no_new_reconnect in Ht.
    set (h1 := on_socket (setReadyState CLOSED) ws h) in *.
    destruct (commit_frame (connectionState h) (onclose h1)) as (_ & _ & -> & _).
    destruct (Nat.lt_ge_cases (reconnectAttempts h1) maxReconnectAttempts) as [Hlt|Hge].
    + destruct (onclose_retry h1 Hlt) as (_ & -> & Et). rewrite Et in Ht.
      apply lookup_insert_Some in Ht as [[<- _] | [_ Ht]]; [reflexivity|].
      exfalso. exact (Hno _ _ Ht).
    + destruct (onclose_terminal h1 Hge) as (_ & _ & Et & _). rewrite Et in Ht.
      exfalso. exact (Hno _ _ Ht).
Qed.

(** The same shutdown in the world viewer.  When the only channel of the
    hook closes and [disconnect()] runs before the retry fires, the retry
    is cleared: whatever socket and timer events follow, no socket is
    created any more. *)
Theorem disconnect_after_close_cancels_retry (h : Hook) (ws : nat) (es : list Event) :
  live h ws = true ->
  (forall ws' sk, sockets h !! ws' = Some sk -> ws' <> ws -> readyState sk = CLOSED) ->
  (forall t d, timers h !! t <> Some (ReconnectTimeout d)) ->
  Forall (fun e => e <> CallConnect) es ->
  let shut := step (step h (WsClose ws)) CallDisconnect in
  (forall t d, timers shut !! t <> Some (ReconnectTimeout d)) /\
  length (sockets (run shut es)) = length (sockets h).
Proof.
  intros Hl Hothers Hno Hes shut.
  destruct (after_close h ws Hl Hothers Hno) as (Hclosed & Hlen & Href).
  set (h' := step h (WsClose ws)) in *.
  assert (Hq : quiet shut).
  { subst shut. unfold step. apply quiet_commit. cbn [dispatch]. split.
    - rewrite sockets_disconnect. destruct (wsRef h'); [|exact Hclosed].
      rewrite closed_alter_close; assumption.
    - intros t d. rewrite timers_disconnect.
      destruct (reconnectTimeoutRef h') as [r|] eqn:Er.
      + rewrite lookup_delete_Some. intros [Hne Ht].
        apply Href in Ht. congruence.
      + intros Ht. apply Href in Ht. discriminate. }
  split; [apply Hq|].
  destruct (quiet_run shut es Hq Hes) as [_ ->].
  subst shut. unfold step. rewrite sockets_commit. cbn [dispatch].
  rewrite sockets_disconnect. destruct (wsRef h'); [rewrite length_alter|]; exact Hlen.
Qed.

(** *** The statements at concrete runs *)

Lemma reconnect_attempts_counted_witness :
  reconnectAttempts (step (mount serverUrl initialState) (WsOpen 0)) = 0%nat /\
  (reconnectAttempts (step (mount serverUrl initialState) (WsClose 0)) = 1%nat /\
   reconnectTimeoutRef (step (mount serverUrl initialState) (WsClose 0)) = Some 1%nat) /\
  (reconnectAttempts (step (run (mount serverUrl initialState) fiveFailures) (WsClose 5))
     = 5%nat /\
   connectionError (store (step (run (mount serverUrl initialState) fiveFailures) (WsClose 5)))
     = Some "连接失败，已达到最大重试次数").
Proof.
  destruct (reconnect_attempts_counted serverUrl initialState [] 0)
    as (_ & Hopen & Hretry & _).
  destruct (reconnect_attempts_counted serverUrl initialState fiveFailures 5)
    as (_ & _ & _ & Hterminal).
  split; [|split].
  - apply Hopen. reflexivity.
  - destruct Hretry as (Ha & Hr & _); [reflexivity | vm_compute; lia |].
    split; [exact Ha | exact Hr].
  - destruct Hterminal as (Ha & _ & _ & He); [reflexivity | reflexivity |].
    split; [exact Ha | exact He].
Defined.

Lemma subscribe_once_then_pings_witness :
  sockets (step (mount serverUrl initialState) (WsOpen 0)) !! 0%nat =
    Some {| readyState := OPEN; sent := [subscribeMessage] |} /\
  (exists ts,
     [subscribeMessage; Ping 30000; Ping 60000] = subscribeMessage :: map Ping ts) /\
  connectionState (run (mount serverUrl initialState) [WsOpen 0]) = connected /\
  sockets (step (run (mount serverUrl initialState) [WsOpen 0; TimerFire 1 30000])
             (TimerFire 1 60000)) !! 0%nat =
    Some {| readyState := OPEN;
            sent := [subscribeMessage; Ping 30000] ++ [Ping 60000] |} /\
  (exists t,
     timers (step (mount serverUrl initialState) (WsOpen 0)) !! t =
       Some (HeartbeatInterval 30000) /\
     sockets (step (step (mount serverUrl initialState) (WsOpen 0)) (TimerFire t 30000))
       !! 0%nat =
       Some {| readyState := OPEN; sent := [subscribeMessage; Ping 30000] |}).
Proof.
  destruct (subscribe_once_then_pings serverUrl initialState [])
    as (_ & Hopen & _ & _ & _ & _ & Hflow).
  destruct (subscribe_once_then_pings serverUrl initialState
              [WsOpen 0; TimerFire 1 30000; TimerFire 1 60000]) as (Hsent & _).
  destruct (subscribe_once_then_pings serverUrl initialState [WsOpen 0])
    as (_ & _ & _ & Hbeat & _).
  destruct (subscribe_once_then_pings serverUrl initialState
              [WsOpen 0; TimerFire 1 30000]) as (_ & _ & _ & _ & _ & Hping & _).
  split; [|split; [|split; [|split]]].
  - apply Hopen. reflexivity.
  - apply (Hsent 0%nat {| readyState := OPEN;
                          sent := [subscribeMessage; Ping 30000; Ping 60000] |});
      reflexivity.
  - apply (Hbeat 1%nat 30000). reflexivity.
  - apply (Hping 1%nat 30000 60000 0%nat
             {| readyState := OPEN; sent := [subscribeMessage; Ping 30000] |});
      reflexivity.
  - apply (Hflow 0%nat 30000); reflexivity.
Defined.

Lemma disconnect_after_close_cancels_retry_witness :
  let shut := step (step (mount serverUrl initialState) (WsClose 0)) CallDisconnect in
  (forall t d, timers shut !! t <> Some (ReconnectTimeout d)) /\
  length (sockets (run shut [TimerFire 1 3000; WsOpen 0; WsClose 0; Unmount])) = 1%nat.
Proof.
  apply (disconnect_after_close_cancels_retry (mount serverUrl initialState) 0
           [TimerFire 1 3000; WsOpen 0; WsClose 0; Unmount]).
  - reflexivity.
  - intros ws' sk Hsk Hne. destruct ws' as [|ws']; [contradiction|]. discriminate Hsk.
  - intros t d H. vm_compute in H. discriminate H.
  - repeat constructor; discriminate.
Defined.

(** Six channels in a row fail: the counter goes up to the bound and
    stays, the sixth close schedules nothing and sets the error. *)
Example six_failures_are_terminal :
  let h := run (mount serverUrl initialState) (fiveFailures ++ [WsClose 5]) in
  reconnectAttempts h = 5%nat /\
  timers h = ∅ /\
  length (sockets h) = 6%nat /\
  connectionState h = disconnected /\
  connectionError (store h) = Some "连接失败，已达到最大重试次数".
Proof. cbn zeta. repeat split; vm_compute; reflexivity. Qed.

(** [disconnect()] on a channel that is still open: its close event comes
    afterwards, the close handler schedules a reconnect that nothing
    clears, and a second channel is opened. *)
Example disconnect_while_open_reconnects :
  let h := run (mount serverUrl initialState)
               [WsOpen 0; CallDisconnect; WsClose 0; TimerFire 2 3000] in
  sockets h = [{| readyState := CLOSED; sent := [subscribeMessage] |}; newSocket] /\
  wsRef h = Some 1%nat.
Proof. cbn zeta. split; vm_compute; reflexivity. Qed.

End ConnectionLifecycle.

(* ===================================================================== *)
(** * Further properties                                                  *)
(* ===================================================================== *)

Section BoundedLogs.
Import Js.

(** One push onto any list, for a window of [c] elements. *)
Lemma slice_push {A} (c : nat) (l : list A) (m : A) :
  (2 <= c)%nat ->
  slice (- Z.of_nat (c - 1)) l ++ [m] =
  drop (length (l ++ [m]) - c) (l ++ [m]).
Proof.
  intros Hc. rewrite slice_last by lia.
  rewrite length_app. cbn [length].
  rewrite drop_app_le by lia. f_equal. f_equal. lia.
Qed.

(** What a store field holds after a run of pushes, each of which keeps
    the last [c - 1] elements and appends one. *)
Lemma pushes_window {S A} (push : A -> S -> S) (get : S -> list A) (c : nat) :
  (2 <= c)%nat ->
  (forall a s, get (push a s) = slice (- Z.of_nat (c - 1)) (get s) ++ [a]) ->
  forall arrivals s,
    arrivals <> [] ->
    get (fold_left (fun st a => push a st) arrivals s) =
    drop (length (get s ++ arrivals) - c) (get s ++ arrivals).
Proof.
  intros Hc Hpush arrivals. induction arrivals as [|a pre IH] using rev_ind;
    intros s Hne; [contradiction|].
  rewrite fold_left_app. cbn [fold_left]. rewrite Hpush.
  destruct pre as [|b pre'].
  - cbn [fold_left]. rewrite slice_push by exact Hc. reflexivity.
  - rewrite IH by discriminate. set (L := get s ++ b :: pre').
    rewrite slice_push by exact Hc.
    rewrite app_assoc. fold L.
    rewrite <- (drop_app_le L [a]) by lia.
    rewrite drop_drop. f_equal.
    rewrite length_drop, !length_app. cbn [length]. lia.
Qed.

End BoundedLogs.

Section DashboardLog.
Import Js DashboardStore DashboardSelectors Samples.

(** After at least one [addEvent], whatever the store held before, the
    event log of the control tower is the last 200 of the old events
    followed by the added ones, in that order. *)
Theorem dashboard_events_keep_last_200
    (arrivals : list DashboardEvent) (s : DashboardState) :
  arrivals <> [] ->
  events (addEvents arrivals s) =
    drop (length (events s ++ arrivals) - 200) (events s ++ arrivals) /\
  (length (events (addEvents arrivals s)) <= 200)%nat.
Proof.
  intros Hne.
  assert (H : events (addEvents arrivals s) =
              drop (length (events s ++ arrivals) - 200) (events s ++ arrivals)).
  { apply (pushes_window addEvent events 200); [lia | reflexivity | exact Hne]. }
  split; [exact H|]. rewrite H, length_drop. lia.
Qed.

Lemma dashboard_events_keep_last_200_witness :
  events (addEvents [{| event_timestamp := None; event_type := None; actor_id := None;
                        payload := None; metadata := None |}] initialState) =
    drop (length (events initialState ++
                    [{| event_timestamp := None; event_type := None; actor_id := None;
                        payload := None; metadata := None |}]) - 200)
         (events initialState ++
            [{| event_timestamp := None; event_type := None; actor_id := None;
                payload := None; metadata := None |}]) /\
  (length (events (addEvents [{| event_timestamp := None; event_type := None;
                                 actor_id := None; payload := None;
                                 metadata := None |}] initialState)) <= 200)%nat.
Proof.
  apply (dashboard_events_keep_last_200
           [{| event_timestamp := None; event_type := None; actor_id := None;
               payload := None; metadata := None |}] initialState).
  discriminate.
Defined.

(** After at least one [updateMetrics], [currentMetrics] is the sample
    pushed last, and it is the last element of [metricsHistory]. *)
Theorem currentMetrics_is_newest
    (arrivals : list (Z * MetricsData)) (s : DashboardState) :
  arrivals <> [] ->
  currentMetrics (pushMetrics arrivals s) = last (map snd arrivals) /\
  last (metricsHistory (pushMetrics arrivals s)) = currentMetrics (pushMetrics arrivals s).
Proof.
  destruct arrivals as [|a pre] using rev_ind; [contradiction|]. intros _.
  rewrite pushMetrics_snoc. cbn [updateMetrics currentMetrics metricsHistory].
  rewrite map_app. cbn [map]. rewrite !last_snoc. split; reflexivity.
Qed.

Lemma currentMetrics_is_newest_witness :
  currentMetrics (pushMetrics [(0, sampleAt 1 100); (5, sampleAt 2 110)] initialState) =
    last (map snd [(0, sampleAt 1 100); (5, sampleAt 2 110)]) /\
  last (metricsHistory
          (pushMetrics [(0, sampleAt 1 100); (5, sampleAt 2 110)] initialState)) =
    currentMetrics (pushMetrics [(0, sampleAt 1 100); (5, sampleAt 2 110)] initialState).
Proof.
  apply (currentMetrics_is_newest [(0, sampleAt 1 100); (5, sampleAt 2 110)] initialState).
  discriminate.
Defined.

(** [useRecentEvents(limit)] for a limit that is not negative: the newest
    [limit] events, newest first; with limit 0, [slice(-0)] takes the
    whole log, so every event comes back.  The event added last is the
    first one of the result. *)
Theorem recent_events_newest_first (limit : Z) (s : DashboardState) :
  0 <= limit ->
  useRecentEvents limit s =
    (if limit =? 0 then rev (events s) else take (Z.to_nat limit) (rev (events s))) /\
  (length (useRecentEvents limit s) <= length (events s))%nat /\
  (forall e, head (useRecentEvents limit (addEvent e s)) = Some e).
Proof.
  intros Hl. unfold useRecentEvents.
  assert (Hs : forall l : list DashboardEvent,
             slice (- limit) l =
             if limit =? 0 then l else drop (length l - Z.to_nat limit) l).
  { intros l. destruct (limit =? 0) eqn:E.
    - apply Z.eqb_eq in E. subst. unfold slice. cbn. rewrite Z.min_l by lia.
      reflexivity.
    - apply Z.eqb_neq in E. rewrite <- (Z2Nat.id limit) at 1 by lia.
      apply slice_last. lia. }
  split; [|split].
  - rewrite Hs. destruct (limit =? 0); [reflexivity|].
    rewrite firstn_rev. reflexivity.
  - rewrite length_rev, Hs. destruct (limit =? 0); [lia|]. rewrite length_drop. lia.
  - intros e. rewrite Hs. cbn [addEvent events].
    set (l := slice (-199) (events s) ++ [e]).
    assert (Hlast : forall k, (k < length l)%nat -> head (rev (drop k l)) = Some e).
    { intros k Hk. subst l. rewrite drop_app_le by (rewrite length_app in Hk; cbn in Hk; lia).
      rewrite rev_app_distr. reflexivity. }
    assert (Hlen : (0 < length l)%nat) by (subst l; rewrite length_app; cbn; lia).
    destruct (limit =? 0) eqn:E.
    + apply (Hlast 0%nat). exact Hlen.
    + apply Z.eqb_neq in E. apply Hlast. lia.
Qed.

Lemma recent_events_newest_first_witness :
  useRecentEvents 0 initialState = [] /\
  (length (useRecentEvents 0 initialState) <= 0)%nat /\
  (forall e, head (useRecentEvents 0 (addEvent e initialState)) = Some e).
Proof. apply (recent_events_newest_first 0 initialState). lia. Defined.

End DashboardLog.

Section SimulationLog.
Import Js SimulationStore SimulationSelectors UseWebSocket.

(** After at least one [addEvent], whatever the store held before, the
    event log of the world viewer is the last 1000 of the old events
    followed by the added ones, in that order. *)
Theorem simulation_events_keep_last_1000 (arrivals : list obj) (s : SimulationState) :
  arrivals <> [] ->
  events (addEvents arrivals s) =
    drop (length (events s ++ arrivals) - 1000) (events s ++ arrivals) /\
  (length (events (addEvents arrivals s)) <= 1000)%nat.
Proof.
  intros Hne.
  assert (H : events (addEvents arrivals s) =
              drop (length (events s ++ arrivals) - 1000) (events s ++ arrivals)).
  { apply (pushes_window addEvent events 1000); [lia | reflexivity | exact Hne]. }
  split; [exact H|]. rewrite H, length_drop. lia.
Qed.

Lemma simulation_events_keep_last_1000_witness :
  events (addEvents [∅] initialState) =
    drop (length (events initialState ++ [∅]) - 1000) (events initialState ++ [∅]) /\
  (length (events (addEvents [∅] initialState)) <= 1000)%nat.
Proof.
  apply (simulation_events_keep_last_1000 [∅] initialState). discriminate.
Defined.

(** A [policy.vote] frame adds one event, the newest of the log: its
    [type] is [policy_vote] whatever [type] the payload had, and every
    other key is the payload's. *)
Theorem policy_vote_is_tagged (data : obj) (s : SimulationState) :
  exists event,
    last (events (handleMessage (PolicyVote data) s)) = Some event /\
    event !! "type" = Some (VStr "policy_vote") /\
    (forall key, key <> "type" -> event !! key = data !! key).
Proof.
  exists (<["type" := VStr "policy_vote"]> data). cbn. split; [apply last_snoc|].
  split; [apply lookup_insert_eq|].
  intros key Hk. apply lookup_insert_ne. congruence.
Qed.

End SimulationLog.

Section MetricSelection.
Import Js DashboardStore DashboardSelectors Samples.

Lemma includes_elem_of x l : includes x l = true <-> x ∈ l.
Proof.
  unfold includes. rewrite existsb_exists, list_elem_of_In. split.
  - intros (y & Hy & E). apply String.eqb_eq in E. subst. exact Hy.
  - intros H. exists x. split; [exact H | apply String.eqb_refl].
Qed.

Lemma elem_of_remove (metric m : string) (l : list string) :
  m ∈ List.filter (fun x => negb (String.eqb x metric)) l <-> m ∈ l /\ m <> metric.
Proof.
  rewrite !list_elem_of_In, filter_In, negb_true_iff, String.eqb_neq. reflexivity.
Qed.

Lemma remove_absent (metric : string) (l : list string) :
  metric ∉ l -> List.filter (fun x => negb (String.eqb x metric)) l = l.
Proof.
  induction l as [|a l IH]; intros Hn; [reflexivity|]. cbn.
  apply not_elem_of_cons in Hn as [Hne Hn].
  assert (E : String.eqb a metric = false) by (apply String.eqb_neq; congruence).
  rewrite E. cbn. rewrite IH by exact Hn. reflexivity.
Qed.

Lemma toggleMetric_selected (metric : string) (s : DashboardState) :
  metric ∈ selectedMetrics s ->
  selectedMetrics (toggleMetric metric s) =
  List.filter (fun m => negb (String.eqb m metric)) (selectedMetrics s).
Proof.
  intros H. apply includes_elem_of in H. unfold toggleMetric. cbn [selectedMetrics].
  rewrite H. reflexivity.
Qed.

Lemma toggleMetric_unselected (metric : string) (s : DashboardState) :
  metric ∉ selectedMetrics s ->
  selectedMetrics (toggleMetric metric s) = selectedMetrics s ++ [metric].
Proof.
  intros H. unfold toggleMetric. cbn [selectedMetrics].
  destruct (includes metric (selectedMetrics s)) eqn:E; [|reflexivity].
  apply includes_elem_of in E. contradiction.
Qed.

(** [toggleMetric] flips whether the metric is selected and leaves every
    other metric as it was; a selection without repetitions stays without;
    toggling twice gives the selection back when the metric was not
    selected, and moves the metric to the end when it was. *)
Theorem toggleMetric_flips_selection (metric : string) (s : DashboardState) :
  (metric ∈ selectedMetrics (toggleMetric metric s) <-> metric ∉ selectedMetrics s) /\
  (forall m, m <> metric ->
     (m ∈ selectedMetrics (toggleMetric metric s) <-> m ∈ selectedMetrics s)) /\
  (NoDup (selectedMetrics s) -> NoDup (selectedMetrics (toggleMetric metric s))) /\
  (metric ∉ selectedMetrics s ->
     selectedMetrics (toggleMetric metric (toggleMetric metric s)) = selectedMetrics s) /\
  (metric ∈ selectedMetrics s ->
     selectedMetrics (toggleMetric metric (toggleMetric metric s)) =
       List.filter (fun m => negb (String.eqb m metric)) (selectedMetrics s) ++ [metric]).
Proof.
  destruct (decide (metric ∈ selectedMetrics s)) as [Hin|Hout].
  - pose proof (toggleMetric_selected metric s Hin) as Hon.
    assert (Hgone : metric ∉ selectedMetrics (toggleMetric metric s)).
    { rewrite Hon, elem_of_remove. intros [_ H]. congruence. }
    split; [|split; [|split; [|split]]].
    + split; [contradiction | intros H; contradiction].
    + intros m Hm. rewrite Hon, elem_of_remove. split; [intros [H _]; exact H | auto].
    + intros Hnd. rewrite Hon. rewrite NoDup_ListNoDup in *.
      apply List.NoDup_filter, Hnd.
    + contradiction.
    + intros _. rewrite (toggleMetric_unselected metric _ Hgone), Hon. reflexivity.
  - pose proof (toggleMetric_unselected metric s Hout) as Hoff.
    assert (Hthere : metric ∈ selectedMetrics (toggleMetric metric s)).
    { rewrite Hoff. apply elem_of_app. right. apply list_elem_of_here. }
    split; [|split; [|split; [|split]]].
    + split; [auto | intros _; exact Hthere].
    + intros m Hm. rewrite Hoff, elem_of_app, list_elem_of_singleton. split; [|auto].
      intros [H | H]; [exact H | contradiction].
    + intros Hnd. rewrite Hoff. apply NoDup_app. split; [exact Hnd|]. split.
      * intros x Hx Hx'. apply list_elem_of_singleton in Hx'. subst. contradiction.
      * apply NoDup_singleton.
    + intros _. rewrite (toggleMetric_selected metric _ Hthere), Hoff.
      rewrite List.filter_app, remove_absent by exact Hout.
      cbn. rewrite String.eqb_refl. cbn. apply app_nil_r.
    + contradiction.
Qed.

Lemma toggleMetric_flips_selection_witness :
  selectedMetrics (toggleMetric "credit_growth" (toggleMetric "credit_growth" initialState))
    = selectedMetrics initialState /\
  selectedMetrics (toggleMetric "gdp" (toggleMetric "gdp" initialState))
    = ["unemployment"; "inflation"; "policy_rate"; "gdp"].
Proof.
  split.
  - apply (toggleMetric_flips_selection "credit_growth" initialState).
    intros H. apply list_elem_of_In in H. cbn in H.
    repeat (destruct H as [H|H]; [discriminate H|]). exact H.
  - apply (toggleMetric_flips_selection "gdp" initialState). apply list_elem_of_here.
Defined.

Lemma filter_sublist_mono {A} (p q : A -> bool) (l : list A) :
  (forall x, p x = true -> q x = true) ->
  sublist (List.filter p l) (List.filter q l).
Proof.
  intros Hpq. induction l as [|a l IH]; cbn; [constructor|].
  destruct (p a) eqn:Ep.
  - rewrite (Hpq a Ep). apply sublist_skip, IH.
  - destruct (q a); [apply sublist_cons, IH | exact IH].
Qed.

Lemma filter_sublist {A} (p : A -> bool) (l : list A) : sublist (List.filter p l) l.
Proof.
  induction l as [|a l IH]; cbn; [constructor|].
  destruct (p a); [apply sublist_skip, IH | apply sublist_cons, IH].
Qed.

Lemma cutoff_table (now : Z) :
  cutoff now "1h" = Some (now - 3600000) /\
  cutoff now "6h" = Some (now - 21600000) /\
  cutoff now "24h" = Some (now - 86400000) /\
  cutoff now "7d" = Some (now - 604800000).
Proof. repeat split. Qed.

(** [useFilteredMetricsHistory] keeps, in their order, exactly the samples
    whose time in milliseconds is after the cutoff; a wider range keeps at
    least what a narrower one keeps; a range that is not in the table is
    read as one hour, except a name inherited from [Object.prototype]
    (such as [toString]), for which the cutoff is NaN and nothing is
    kept. *)
Theorem filtered_history_widens (now : Z) (s : DashboardState) :
  (forall r m, m ∈ useFilteredMetricsHistory now r s <->
               m ∈ metricsHistory s /\
               exists c, cutoff now r = Some c /\ c < timestamp m * 1000) /\
  (forall r, sublist (useFilteredMetricsHistory now r s) (metricsHistory s)) /\
  sublist (useFilteredMetricsHistory now "1h" s) (useFilteredMetricsHistory now "6h" s) /\
  sublist (useFilteredMetricsHistory now "6h" s) (useFilteredMetricsHistory now "24h" s) /\
  sublist (useFilteredMetricsHistory now "24h" s) (useFilteredMetricsHistory now "7d" s) /\
  (forall r, ranges r = Missing ->
     useFilteredMetricsHistory now r s = useFilteredMetricsHistory now "1h" s) /\
  (forall r, ranges r = Inherited -> useFilteredMetricsHistory now r s = []) /\
  useFilteredMetricsHistory now "toString" s = [].
Proof.
  assert (Hnone : forall l : list MetricsData, List.filter (after None) l = []).
  { induction l as [|a l IH]; [reflexivity|exact IH]. }
  split; [|split; [|split; [|split; [|split; [|split; [|split]]]]]].
  - intros r m. unfold useFilteredMetricsHistory.
    rewrite !list_elem_of_In, filter_In. unfold after.
    destruct (cutoff now r) as [c|].
    + rewrite Z.ltb_lt. split.
      * intros [H1 H2]. split; [exact H1|]. exists c. split; [reflexivity|exact H2].
      * intros [H1 (c' & [= <-] & H2)]. split; assumption.
    + split; [intros [_ H]; discriminate H | intros [_ (c & H & _)]; discriminate H].
  - intros r. apply filter_sublist.
  - apply filter_sublist_mono. intros m. destruct (cutoff_table now) as (-> & -> & _).
    unfold after. rewrite !Z.ltb_lt. lia.
  - apply filter_sublist_mono. intros m. destruct (cutoff_table now) as (_ & -> & -> & _).
    unfold after. rewrite !Z.ltb_lt. lia.
  - apply filter_sublist_mono. intros m. destruct (cutoff_table now) as (_ & _ & -> & ->).
    unfold after. rewrite !Z.ltb_lt. lia.
  - intros r Hr. unfold useFilteredMetricsHistory, cutoff. rewrite Hr. reflexivity.
  - intros r Hr. unfold useFilteredMetricsHistory, cutoff. rewrite Hr. apply Hnone.
  - apply Hnone.
Qed.

End MetricSelection.

Section KpiChange.
Import Js DashboardStore KPICards Samples.
Local Open Scope Q_scope.

Lemma slice_99_snoc {A} (l : list A) (a : A) :
  exists older, slice (-99) (l ++ [a]) = older ++ [a].
Proof.
  change (-99)%Z with (- Z.of_nat 99)%Z. rewrite slice_last by lia.
  rewrite length_app. cbn [length]. rewrite drop_app_le by lia. eauto.
Qed.

Lemma calculateChange_last_two (key : CardKey) (older : list MetricsData) (a b current : MetricsData) :
  calculateChange key current (older ++ [a] ++ [b]) =
  match kpi key (kpis a) with
  | None => Null
  | Some previousValue =>
      if Qeq_bool previousValue 0 then Null
      else match kpi key (kpis current) with
           | None => NaN
           | Some currentValue =>
               Percent ((currentValue - previousValue) / previousValue * 100)
           end
  end.
Proof.
  unfold calculateChange. rewrite !length_app. cbn [length].
  replace (length older + (1 + 1) <? 2)%nat with false
    by (symmetry; apply Nat.ltb_ge; lia).
  replace (length older + (1 + 1) - 2)%nat with (length older + 0)%nat by lia.
  rewrite lookup_app_r by lia.
  replace (length older + 0 - length older)%nat with 0%nat by lia. reflexivity.
Qed.

Lemma calculateChange_after_pushes
    (key : CardKey) (a b : MetricsData) (now1 now2 : Z) (s : DashboardState) :
  calculateChange key b
    (metricsHistory (updateMetrics now2 b (updateMetrics now1 a s))) =
  match kpi key (kpis a) with
  | None => Null
  | Some previousValue =>
      if Qeq_bool previousValue 0 then Null
      else match kpi key (kpis b) with
           | None => NaN
           | Some currentValue =>
               Percent ((currentValue - previousValue) / previousValue * 100)
           end
  end.
Proof.
  cbn [updateMetrics metricsHistory].
  destruct (slice_99_snoc (slice (-99) (metricsHistory s)) a) as [older ->].
  rewrite <- app_assoc. apply calculateChange_last_two.
Qed.

(** The change a KPI card shows after a sample [a] and then a sample [b]
    were pushed: nothing when the value of [a] is missing or zero (no
    division by zero), NaN when only the value of [b] is missing, and
    otherwise the change from [a] to [b] in percent of [a]; after a single
    push into the empty store, nothing. *)
Theorem kpi_change_compares_last_two
    (key : CardKey) (a b : MetricsData) (now1 now2 : Z) (s : DashboardState) :
  calculateChange key b
    (metricsHistory (updateMetrics now2 b (updateMetrics now1 a s))) =
  match kpi key (kpis a) with
  | None => Null
  | Some previousValue =>
      if Qeq_bool previousValue 0 then Null
      else match kpi key (kpis b) with
           | None => NaN
           | Some currentValue =>
               Percent ((currentValue - previousValue) / previousValue * 100)
           end
  end /\
  calculateChange key a (metricsHistory (updateMetrics now1 a initialState)) = Null.
Proof.
  split; [apply calculateChange_after_pushes | reflexivity].
Qed.

Lemma percent_sign (previousValue currentValue : Q) :
  0 < previousValue ->
  (0 < (currentValue - previousValue) / previousValue * 100 <->
   previousValue < currentValue).
Proof.
  intros Hp.
  assert (Hi : 0 < / previousValue) by (apply Qinv_lt_0_compat; exact Hp).
  unfold Qdiv. split.
  - intros H.
    assert (H1 : 0 < (currentValue - previousValue) * / previousValue) by lra.
    destruct (Qlt_le_dec previousValue currentValue) as [Hlt|Hle]; [exact Hlt|].
    exfalso.
    assert (H2 : (currentValue - previousValue) * / previousValue
                 <= 0 * / previousValue)
      by (apply Qmult_le_compat_r; lra).
    lra.
  - intros H.
    assert (H1 : 0 < (currentValue - previousValue) * / previousValue)
      by (apply Qmult_lt_0_compat; lra).
    lra.
Qed.

(** For a previous value above zero the card shows a rise exactly when the
    value rose. *)
Theorem kpi_change_rises_with_value
    (key : CardKey) (a b : MetricsData) (now1 now2 : Z) (s : DashboardState)
    (previousValue currentValue : Q) :
  kpi key (kpis a) = Some previousValue ->
  kpi key (kpis b) = Some currentValue ->
  0 < previousValue ->
  exists change,
    calculateChange key b
      (metricsHistory (updateMetrics now2 b (updateMetrics now1 a s))) = Percent change /\
    (0 < change <-> previousValue < currentValue).
Proof.
  intros Ha Hb Hp.
  rewrite calculateChange_after_pushes.
  rewrite Ha, Hb.
  assert (E : Qeq_bool previousValue 0 = false).
  { destruct (Qeq_bool previousValue 0) eqn:E; [|reflexivity].
    apply Qeq_bool_eq in E. lra. }
  rewrite E. eexists. split; [reflexivity|]. apply percent_sign, Hp.
Qed.

Lemma kpi_change_rises_with_value_witness :
  exists change,
    calculateChange gdp_key (sampleAt 2 110)
      (metricsHistory (updateMetrics 5 (sampleAt 2 110)
                         (updateMetrics 0 (sampleAt 1 100) initialState)))
      = Percent change /\
    (0 < change <-> 100 < 110).
Proof.
  apply (kpi_change_rises_with_value gdp_key (sampleAt 1 100) (sampleAt 2 110) 0 5
           initialState 100 110); reflexivity.
Defined.

Lemma Qltb_lt a b : Qltb a b = true <-> a < b.
Proof.
  unfold Qltb. rewrite negb_true_iff. split.
  - intros H. apply Qnot_le_lt. intros Hle. apply Qle_bool_iff in Hle. congruence.
  - intros H. destruct (Qle_bool b a) eqn:E; [|reflexivity].
    apply Qle_bool_iff in E. lra.
Qed.

(** For an indicator where lower is better ([inverse]), [getChangeClass]
    gives the opposite class, and neutral stays neutral. *)
Theorem change_class_inverts (change : Q) :
  getChangeClass change true =
  match getChangeClass change false with
  | neutral => neutral
  | positive => negative
  | negative => positive
  end.
Proof.
  unfold getChangeClass. destruct (Qltb (Qabs change) 0.01) eqn:En; [reflexivity|].
  assert (Hbig : ~ Qabs change < 0.01).
  { intros H. apply Qltb_lt in H. congruence. }
  destruct (Qltb change 0) eqn:E1; destruct (Qltb 0 change) eqn:E2; try reflexivity.
  - apply Qltb_lt in E1, E2. lra.
  - exfalso. apply Hbig.
    assert (H1 : ~ change < 0) by (intros H; apply Qltb_lt in H; congruence).
    assert (H2 : ~ 0 < change) by (intros H; apply Qltb_lt in H; congruence).
    assert (H0 : change == 0) by lra.
    rewrite H0. reflexivity.
Qed.

End KpiChange.

Section Viewport.
Import SimulationStore WorldViewer Samples.
Local Open Scope Q_scope.

(** Two camera patches in a row are one patch, the later value winning;
    the empty patch changes nothing; no patch touches another field of
    the store. *)
Theorem updateCamera_composes (p q : CameraPatch) (s : SimulationState) :
  updateCamera q (updateCamera p s) =
    updateCamera {| patch_x := match patch_x q with Some v => Some v | None => patch_x p end;
                    patch_y := match patch_y q with Some v => Some v | None => patch_y p end;
                    patch_zoom := match patch_zoom q with
                                  | Some v => Some v
                                  | None => patch_zoom p
                                  end |} s /\
  updateCamera {| patch_x := None; patch_y := None; patch_zoom := None |} s = s /\
  updateCamera p (updateCamera p s) = updateCamera p s /\
  agents (updateCamera p s) = agents s /\
  selectedAgent (updateCamera p s) = selectedAgent s /\
  showLayers (updateCamera p s) = showLayers s /\
  events (updateCamera p s) = events s /\
  metrics (updateCamera p s) = metrics s /\
  simulationStatus (updateCamera p s) = simulationStatus s /\
  isConnected (updateCamera p s) = isConnected s /\
  connectionError (updateCamera p s) = connectionError s.
Proof.
  destruct s as [ic ce ss ag me ev sa sl [cx cy cz]].
  destruct p as [[px|] [py|] [pz|]], q as [[qx|] [qy|] [qz|]]; repeat split.
Qed.

Lemma drag_step (v : Viewer) (cx cy : Q) :
  isDragging v = true ->
  let v' := handle v (MouseMove cx cy) in
  isDragging v' = true /\ dragStart v' = dragStart v /\
  lastPosition v' = lastPosition v /\
  x (camera (store v')) = px (lastPosition v) + (cx - px (dragStart v)) /\
  y (camera (store v')) = py (lastPosition v) + (cy - py (dragStart v)) /\
  zoom (camera (store v')) = zoom (camera (store v)).
Proof. intros Hd. cbn. rewrite Hd. cbn. repeat split; assumption. Qed.

Lemma drag_moves (moves : list (Q * Q)) : forall v : Viewer,
  isDragging v = true ->
  let v' := handleAll v (pointerMoves moves) in
  isDragging v' = true /\ dragStart v' = dragStart v /\
  lastPosition v' = lastPosition v /\
  zoom (camera (store v')) = zoom (camera (store v)).
Proof.
  induction moves as [|[a b] moves IH]; intros v Hd; [repeat split; assumption|].
  cbn zeta. change (handleAll v (pointerMoves ((a, b) :: moves)))
    with (handleAll (handle v (MouseMove a b)) (pointerMoves moves)).
  destruct (drag_step v a b Hd) as (H1 & H2 & H3 & _ & _ & H6).
  destruct (IH _ H1) as (I1 & I2 & I3 & I4).
  repeat split; congruence.
Qed.

Lemma idle_moves (moves : list (Q * Q)) (v : Viewer) :
  isDragging v = false -> handleAll v (pointerMoves moves) = v.
Proof.
  intros Hup. induction moves as [|[a b] moves IH]; [reflexivity|].
  change (handleAll v (pointerMoves ((a, b) :: moves)))
    with (handleAll (handle v (MouseMove a b)) (pointerMoves moves)).
  replace (handle v (MouseMove a b)) with v; [exact IH|].
  cbn [handle]. rewrite Hup. reflexivity.
Qed.

(** While the button is down the camera follows the pointer: whatever the
    moves in between, after a move to [(cx, cy)] the offset is the
    container's position at the press plus the pointer's displacement
    since the press, and the zoom is untouched.  Moves after the release
    change nothing. *)
Theorem drag_follows_pointer
    (v : Viewer) (sx sy cx cy : Q) (moves : list (Q * Q)) :
  let v' := handleAll (handle v (MouseDown sx sy))
              (pointerMoves moves ++ [MouseMove cx cy]) in
  x (camera (store v')) = position_x (worldContainer v) + (cx - sx) /\
  y (camera (store v')) = position_y (worldContainer v) + (cy - sy) /\
  zoom (camera (store v')) = zoom (camera (store v)) /\
  handleAll (handle v' MouseUp) (pointerMoves moves) = handle v' MouseUp.
Proof.
  cbn zeta. unfold handleAll at 1 2 3 4. rewrite fold_left_app. cbn [fold_left].
  fold (handleAll (handle v (MouseDown sx sy)) (pointerMoves moves)).
  set (v0 := handle v (MouseDown sx sy)).
  assert (Hd0 : isDragging v0 = true) by reflexivity.
  destruct (drag_moves moves v0 Hd0) as (H1 & H2 & H3 & H4).
  set (v1 := handleAll v0 (pointerMoves moves)) in *.
  destruct (drag_step v1 cx cy H1) as (_ & _ & _ & Hx & Hy & Hz).
  rewrite Hx, Hy, Hz, H2, H3, H4.
  split; [reflexivity|]. split; [reflexivity|]. split; [reflexivity|].
  apply idle_moves. reflexivity.
Qed.

(** A wheel event on a zoom within the range never moves it the wrong
    way: scrolling down ([deltaY > 0]) does not increase it, any other
    wheel event does not decrease it; the offset stays, and the container
    is given the new zoom. *)
Theorem wheel_zooms_the_right_way (v : Viewer) (deltaY : Q) :
  0.1 <= scale_x (worldContainer v) <= 5 ->
  let v' := handle v (Wheel deltaY) in
  (0 < deltaY -> zoom (camera (store v')) <= scale_x (worldContainer v)) /\
  (deltaY <= 0 -> scale_x (worldContainer v) <= zoom (camera (store v'))) /\
  x (camera (store v')) = x (camera (store v)) /\
  y (camera (store v')) = y (camera (store v)) /\
  scale_x (worldContainer v') = zoom (camera (store v')).
Proof.
  intros [Hlo Hhi]. cbn. set (z := scale_x (worldContainer v)) in *.
  split; [|split; [|repeat split]].
  - intros Hd. unfold newZoom, zoomFactor.
    assert (E : Qle_bool deltaY 0 = false).
    { destruct (Qle_bool deltaY 0) eqn:E; [|reflexivity].
      apply Qle_bool_iff in E. lra. }
    rewrite E. cbn [negb]. apply Q.max_lub; [exact Hlo|].
    apply Qle_trans with (z * 0.9); [apply Q.le_min_r | lra].
  - intros Hd. unfold newZoom, zoomFactor.
    assert (E : Qle_bool deltaY 0 = true) by (apply Qle_bool_iff; exact Hd).
    rewrite E. cbn [negb].
    apply Qle_trans with (Qmin 5 (z * 1.1)); [|apply Q.le_max_r].
    apply Q.min_glb; lra.
Qed.

Lemma wheel_zooms_the_right_way_witness :
  let v' := handle (setup initialState) (Wheel 120) in
  (0 < 120 -> zoom (camera (store v')) <= scale_x (worldContainer (setup initialState))) /\
  (120 <= 0 -> scale_x (worldContainer (setup initialState)) <= zoom (camera (store v'))) /\
  x (camera (store v')) = x (camera (store (setup initialState))) /\
  y (camera (store v')) = y (camera (store (setup initialState))) /\
  scale_x (worldContainer v') = zoom (camera (store v')).
Proof.
  apply (wheel_zooms_the_right_way (setup initialState) 120). split; discriminate.
Defined.

End Viewport.

Section TimeControls.
Import Js SimulationStore UseSimulationControl Scenario.

(** The jump of the control tower's status panel, on every input: a
    callback is called only with the non-negative number the text reads
    as, [onRewind] when it is before the current time and [onJump]
    otherwise, and the input is then cleared and hidden; on any other
    text nothing is called and the input stays as it is. *)
Theorem status_panel_jump_targets
    (currentTime : Z) (ui : SystemStatus.TimeControlState) :
  match SystemStatus.handleJump currentTime ui with
  | (ui', Some (SystemStatus.OnRewind t)) =>
      parseInt (SystemStatus.jumpTarget ui) = Some t /\ 0 <= t < currentTime /\
      ui' = {| SystemStatus.jumpTarget := EmptyString;
               SystemStatus.showJumpInput := false |}
  | (ui', Some (SystemStatus.OnJump t)) =>
      parseInt (SystemStatus.jumpTarget ui) = Some t /\ 0 <= t /\ currentTime <= t /\
      ui' = {| SystemStatus.jumpTarget := EmptyString;
               SystemStatus.showJumpInput := false |}
  | (ui', None) =>
      ui' = ui /\
      (parseInt (SystemStatus.jumpTarget ui) = None \/
       exists t, parseInt (SystemStatus.jumpTarget ui) = Some t /\ t < 0)
  end.
Proof.
  unfold SystemStatus.handleJump.
  destruct (parseInt (SystemStatus.jumpTarget ui)) as [t|]; [|split; [reflexivity|left; reflexivity]].
  destruct (0 <=? t) eqn:E0.
  - apply Z.leb_le in E0. destruct (t <? currentTime) eqn:E1.
    + apply Z.ltb_lt in E1. repeat split; assumption.
    + apply Z.ltb_ge in E1. repeat split; assumption.
  - apply Z.leb_gt in E0. split; [reflexivity|]. right. exists t. split; [reflexivity|exact E0].
Qed.

(** A quick-rewind button of the status panel that is enabled rewinds by
    exactly its number of steps: the clamp at zero never applies. *)
Theorem quick_rewind_enabled_is_exact (disabled : bool) (currentTime steps : Z) :
  SystemStatus.quickRewindDisabled disabled currentTime steps = false ->
  SystemStatus.quickRewind currentTime steps = SystemStatus.OnRewind (currentTime - steps) /\
  0 <= currentTime - steps.
Proof.
  unfold SystemStatus.quickRewindDisabled, SystemStatus.quickRewind.
  intros H. apply orb_false_iff in H as [_ H]. apply Z.ltb_ge in H.
  split; [f_equal|]; lia.
Qed.

Lemma quick_rewind_enabled_is_exact_witness :
  SystemStatus.quickRewind 250 100 = SystemStatus.OnRewind (250 - 100) /\
  0 <= 250 - 100.
Proof. apply (quick_rewind_enabled_is_exact false 250 100). reflexivity. Defined.

(** The time bar, on every input: its jump issues a command only for the
    non-negative number the text reads as, and then clears and hides the
    input; its rewind button issues [rewind] with the current time less
    100, and with 0 when that would be negative, so never with a negative
    time; when it is enabled at a positive time the target is before the
    current time. *)
Theorem time_bar_targets
    (ui : TimeBar.TimeBarState) (status : option SimulationStatus) (isLoading : bool) :
  match TimeBar.handleJump ui status with
  | (ui', Some c) =>
      (exists t, parseInt (TimeBar.jumpTarget ui) = Some t /\ 0 <= t /\
                 (c = Rewind t \/ c = Jump t)) /\
      ui' = {| TimeBar.jumpTarget := EmptyString; TimeBar.showJumpInput := false |}
  | (ui', None) =>
      ui' = ui /\
      (parseInt (TimeBar.jumpTarget ui) = None \/
       exists t, parseInt (TimeBar.jumpTarget ui) = Some t /\ t < 0)
  end /\
  let target :=
    if TimeBar.currentTime status <? 100 then 0
    else TimeBar.currentTime status - 100 in
  SimulationSelectors.rewindButton status = Rewind target /\
  endpoint (SimulationSelectors.rewindButton status) = "/control/rewind" /\
  0 <= target /\
  (SimulationSelectors.rewindDisabled isLoading status = false ->
   0 < TimeBar.currentTime status ->
   target < TimeBar.currentTime status).
Proof.
  split.
  - unfold TimeBar.handleJump.
    destruct (parseInt (TimeBar.jumpTarget ui)) as [t|];
      [|split; [reflexivity|left; reflexivity]].
    destruct (0 <=? t) eqn:E0.
    + apply Z.leb_le in E0. split; [|reflexivity]. exists t.
      split; [reflexivity|]. split; [exact E0|].
      destruct (t <? TimeBar.currentTime status); [left|right]; reflexivity.
    + apply Z.leb_gt in E0. split; [reflexivity|]. right. exists t.
      split; [reflexivity|exact E0].
  - cbn zeta. unfold SimulationSelectors.rewindButton.
    destruct (TimeBar.currentTime status <? 100) eqn:E.
    + apply Z.ltb_lt in E. split; [f_equal; lia|]. split; [reflexivity|].
      split; [lia|]. intros _ Hpos. exact Hpos.
    + apply Z.ltb_ge in E. split; [f_equal; lia|]. split; [reflexivity|].
      split; [lia|]. intros _ Hpos. lia.
Qed.

End TimeControls.

Section ControlSession.
Import Js SimulationStore UseSimulationControl SimulationSelectors.

Lemma issueAll_snoc session c o k :
  issueAll (session ++ [(c, o)]) k =
  match o with
  | Resolved => onSuccess (issueAll session k)
  | Rejected error => onError c error (issueAll session k)
  end.
Proof.
  unfold issueAll. rewrite fold_left_app. cbn [fold_left fst snd].
  destruct o; reflexivity.
Qed.

(** Over a whole session of commands: a rejected command sets the error
    text whatever came before, a resolved one leaves the error text of an
    earlier failure in place, the status query is invalidated once per
    resolved command, and nothing else of the store is touched. *)
Theorem session_keeps_last_error (session : list (Command * Outcome)) (k : Control) :
  (forall c error,
     connectionError (store (issueAll (session ++ [(c, Rejected error)]) k)) =
       Some (str_or (message error) (fallback c))) /\
  (forall c,
     connectionError (store (issueAll (session ++ [(c, Resolved)]) k)) =
       connectionError (store (issueAll session k))) /\
  invalidated (issueAll session k) =
    invalidated k ++ repeat "simulation-status" (length (List.filter resolved session)) /\
  isConnected (store (issueAll session k)) = isConnected (store k) /\
  agents (store (issueAll session k)) = agents (store k) /\
  selectedAgent (store (issueAll session k)) = selectedAgent (store k) /\
  simulationStatus (store (issueAll session k)) = simulationStatus (store k) /\
  events (store (issueAll session k)) = events (store k).
Proof.
  split; [|split].
  - intros c error. rewrite issueAll_snoc. reflexivity.
  - intros c. rewrite issueAll_snoc. reflexivity.
  - induction session as [|[c o] session IH] using rev_ind.
    + cbn. rewrite app_nil_r. repeat split.
    + rewrite issueAll_snoc, List.filter_app, length_app, repeat_app.
      destruct IH as (I1 & I2 & I3 & I4 & I5 & I6).
      destruct o as [|error]; cbn [List.filter resolved snd length repeat].
      * cbn [onSuccess invalidated store]. rewrite I1, <- app_assoc.
        repeat split; assumption.
      * cbn [onError invalidated store]. rewrite app_nil_r.
        repeat split; assumption.
Qed.

End ControlSession.

Section AgentsByType.
Import Js SimulationStore SimulationSelectors.

Lemma strict_eq_string (v : option value) (t : string) :
  strict_eq v (Some (VStr t)) = true <-> v = Some (VStr t).
Proof.
  split.
  - destruct v as [[| | |x| |]|]; cbn; try discriminate.
    intros H. apply String.eqb_eq in H. congruence.
  - intros ->. cbn. apply String.eqb_refl.
Qed.

(** [useAgentsByType]: without a type, or with the empty string, every
    agent; with a type, exactly the agents whose [agent_type] is that
    string, in the order of the store, so an agent without an
    [agent_type] is in no typed list; and after a [world.delta] frame the
    list is drawn from the delta alone. *)
Theorem agents_by_type_selects (s : SimulationState) :
  useAgentsByType None s = agents s /\
  useAgentsByType (Some EmptyString) s = agents s /\
  forall t, t <> EmptyString ->
    (forall a, a ∈ useAgentsByType (Some t) s <->
               a ∈ agents s /\ a !! "agent_type" = Some (VStr t)) /\
    sublist (useAgentsByType (Some t) s) (agents s) /\
    (forall delta,
       useAgentsByType (Some t) (updateAgents delta s) =
       useAgentsByType (Some t) (setAgents delta s)) /\
    (forall t', t' <> EmptyString -> t' <> t ->
       forall a, a ∈ useAgentsByType (Some t) s -> a ∉ useAgentsByType (Some t') s).
Proof.
  split; [reflexivity|]. split; [reflexivity|].
  intros t Ht.
  assert (E : forall u, u <> EmptyString ->
            useAgentsByType (Some u) s =
            List.filter (fun agent : Agent =>
                           strict_eq (agent !! "agent_type") (Some (VStr u))) (agents s)).
  { intros u Hu. unfold useAgentsByType.
    destruct (String.eqb u "") eqn:Eu; [|reflexivity].
    apply String.eqb_eq in Eu. contradiction. }
  assert (M : forall u, u <> EmptyString -> forall a,
            a ∈ useAgentsByType (Some u) s <->
            a ∈ agents s /\ a !! "agent_type" = Some (VStr u)).
  { intros u Hu a. rewrite (E u Hu), !list_elem_of_In, filter_In, strict_eq_string.
    reflexivity. }
  split; [exact (M t Ht)|]. split; [|split].
  - rewrite (E t Ht). apply filter_sublist.
  - intros delta. unfold useAgentsByType.
    destruct (String.eqb t ""); [apply agents_updateAgents|].
    rewrite agents_updateAgents. reflexivity.
  - intros t' Ht' Hne a Ha Ha'.
    apply (M t Ht) in Ha as [_ Ha]. apply (M t' Ht') in Ha' as [_ Ha'].
    congruence.
Qed.

End AgentsByType.

Section DashboardChannel.
Import Browser DashboardStore UseDashboardData DashboardInvariant.

Lemma subscribedOnce_new : subscribedOnce newSocket.
Proof. reflexivity. Qed.

Lemma subscribedOnce_closed sk : subscribedOnce sk -> subscribedOnce (setReadyState CLOSED sk).
Proof.
  unfold subscribedOnce. destruct sk as [[] l]; cbn; intros H; auto.
Qed.

Lemma subscribedOnce_close sk : subscribedOnce sk -> subscribedOnce (close sk).
Proof.
  unfold subscribedOnce, close. destruct sk as [[] l]; cbn; intros H; auto.
Qed.

Lemma subscribedOnce_open sk :
  readyState sk = CONNECTING -> subscribedOnce sk ->
  subscribedOnce (send subscribeMessage (setReadyState OPEN sk)).
Proof.
  unfold subscribedOnce. destruct sk as [r l]; cbn. intros -> ->. reflexivity.
Qed.

Lemma sockets_connectWebSocket h :
  sockets (connectWebSocket h) = sockets h \/
  sockets (connectWebSocket h) = sockets h ++ [newSocket].
Proof.
  unfold connectWebSocket. destruct (isOpen (sockets h) (wsRef h)); [left; reflexivity|].
  destruct (validUrl url); [right|left]; reflexivity.
Qed.

Lemma subscribedOnce_step h e :
  Forall subscribedOnce (sockets h) -> Forall subscribedOnce (sockets (step h e)).
Proof.
  intros H. destruct e as [ws|ws now frame|ws|ws|t|]; cbn [step].
  - unfold readyStateOf. destruct (sockets h !! ws) as [sk|] eqn:Hsk; [|exact H].
    cbn. destruct (readyState sk) eqn:Hr; try exact H.
    cbn. rewrite list_alter_alter_eq. apply Forall_alter; [exact H|].
    intros x Hx Px. assert (x = sk) by congruence. subst x.
    apply subscribedOnce_open; [exact Hr|exact Px].
  - destruct (readyStateOf h ws) as [[]|]; try exact H.
    destruct frame; exact H.
  - destruct (readyStateOf h ws) as [[]|]; exact H.
  - assert (Hc : Forall subscribedOnce
                   (sockets (onclose (on_socket (setReadyState CLOSED) ws h)))).
    { cbn. apply Forall_alter; [exact H|]. intros x _. apply subscribedOnce_closed. }
    destruct (readyStateOf h ws) as [[]|]; solve [exact H | exact Hc].
  - destruct (decide (t ∈ timers h)); [|exact H].
    destruct (sockets_connectWebSocket (set_timers (timers h ∖ {[t]}) h)) as [-> | ->].
    + exact H.
    + apply Forall_app. split; [exact H|]. constructor; [exact subscribedOnce_new|constructor].
  - unfold cleanup. destruct (wsRef h) as [ws|]; [|exact H].
    cbn. apply Forall_alter; [exact H|]. intros x _. apply subscribedOnce_close.
Qed.

(** Whatever happens to the control tower's hook after its mount, each
    of its sockets was sent the subscribe envelope once when it opened and
    nothing else: this hook sends no ping. *)
Theorem dashboard_subscribes_once_and_never_pings
    (s : DashboardState) (es : list Event) :
  Forall subscribedOnce (sockets (run (mount s) es)).
Proof.
  assert (H0 : Forall subscribedOnce (sockets (mount s))).
  { constructor; [exact subscribedOnce_new|constructor]. }
  revert H0. generalize (mount s). unfold run.
  induction es as [|e es IH]; intros h H; [exact H|].
  cbn [fold_left]. apply IH, subscribedOnce_step, H.
Qed.





End DashboardChannel.

Section ChannelFrames.
Import Js Browser SimulationStore UseWebSocket.

Lemma commit_on_store f h :
  commit (connectionState h) (on_store f h) = on_store f h.
Proof. exact (commit_same (on_store f h)). Qed.

Lemma set_store_same h : set_store (store h) h = h.
Proof. destruct h; reflexivity. Qed.

Lemma handleMessage_flags m s :
  isConnected (handleMessage m s) = isConnected s /\
  connectionError (handleMessage m s) = connectionError s /\
  simulationStatus (handleMessage m s) = simulationStatus s /\
  showLayers (handleMessage m s) = showLayers s /\
  camera (handleMessage m s) = camera s.
Proof.
  destruct m as [data|[delta|] tiles|data|data|t data]; try (repeat split; fail).
  cbn [handleMessage]. unfold updateAgents. cbn [setAgents selectedAgent].
  destruct (selectedAgent s) as [selected|]; [|repeat split].
  destruct (find (fun a : Agent => sameId a selected) delta); repeat split.
Qed.

(** A frame received by the world viewer's hook writes to the store and
    to nothing else of the hook: no socket is sent anything, no timer is
    set or cleared, the connection state and the retry counter stay; in
    the store the connection flag, the error text, the status, the layers
    and the camera stay.  A frame that does not parse, a frame of another
    topic, a [world.delta] without [actors_delta], and a frame on a socket
    that is not open change nothing at all. *)
Theorem frames_only_write_the_store
    (h : Hook) (ws : nat) (frame : option WebSocketMessage) :
  let h' := step h (WsMessage ws frame) in
  h' = set_store (store h') h /\
  isConnected (store h') = isConnected (store h) /\
  connectionError (store h') = connectionError (store h) /\
  simulationStatus (store h') = simulationStatus (store h) /\
  showLayers (store h') = showLayers (store h) /\
  camera (store h') = camera (store h) /\
  (frame = None -> h' = h) /\
  (forall t data, frame = Some (OtherTopic t data) -> h' = h) /\
  (forall tiles, frame = Some (WorldDelta None tiles) -> h' = h) /\
  (readyStateOf h ws <> Some OPEN -> h' = h).
Proof.
  cbn zeta. unfold step. cbn [dispatch].
  assert (Hsame : commit (connectionState h) h = set_store (store (commit (connectionState h) h)) h
                  /\ commit (connectionState h) h = h).
  { rewrite commit_same, set_store_same. split; reflexivity. }
  destruct (readyStateOf h ws) as [[]|] eqn:Hr;
    try (destruct Hsame as [Hs1 Hs2]; rewrite Hs2; rewrite set_store_same;
         repeat split; intros; reflexivity).
  destruct frame as [m|]; cbn [onmessage].
  - rewrite commit_on_store. cbn [on_store set_store store].
    destruct (handleMessage_flags m (store h)) as (F1 & F2 & F3 & F4 & F5).
    split; [reflexivity|]. repeat split; try assumption.
    + intros [=].
    + intros t data [= ->]. cbn. apply set_store_same.
    + intros tiles [= ->]. cbn. apply set_store_same.
    + intros Hn. contradiction.
  - rewrite commit_same, set_store_same. repeat split; intros; reflexivity.
Qed.

Lemma delete_thrice (m : gmap nat Timer) (t i : nat) :
  delete t (delete i (delete t m)) = delete i (delete t m).
Proof.
  apply map_eq. intros k.
  destruct (decide (k = t)) as [->|Hkt].
  - destruct (decide (t = i)) as [->|Hti].
    + rewrite !lookup_delete_eq. reflexivity.
    + rewrite lookup_delete_eq, (lookup_delete_ne _ i t) by congruence.
      rewrite lookup_delete_eq. reflexivity.
  - rewrite (lookup_delete_ne _ t k) by congruence. reflexivity.
Qed.

Lemma delete_twice (m : gmap nat Timer) (t : nat) :
  delete t (delete t m) = delete t m.
Proof.
  apply map_eq. intros k. destruct (decide (k = t)) as [->|Hkt].
  - rewrite !lookup_delete_eq. reflexivity.
  - rewrite (lookup_delete_ne _ t k) by congruence. reflexivity.
Qed.

(** [disconnect()] is idempotent, whatever state the hook is in: a second
    call right after the first changes nothing.  After it no socket is
    current and the store says not connected; a mounted hook is in state
    disconnected. *)
Theorem disconnect_is_idempotent (h : Hook) :
  step (step h CallDisconnect) CallDisconnect = step h CallDisconnect /\
  wsRef (step h CallDisconnect) = None /\
  isConnected (store (step h CallDisconnect)) = false /\
  (mounted h = true -> connectionState (step h CallDisconnect) = disconnected).
Proof.
  destruct h as [u m s c w r a hb sk tm nt].
  destruct m, c, w as [ws|], r as [t|], hb as [i|];
    (split; [|repeat split]);
    cbv -[delete alter]; intros; rewrite ?delete_thrice, ?delete_twice;
    first [reflexivity | congruence].
Qed.

End ChannelFrames.

Section ChannelEdges.
Import Js Browser SimulationStore UseWebSocket HookInvariant HookEdges Scenario.

Lemma commit_unmounted p h : mounted h = false -> commit p h = h.
Proof. intros Hm. unfold commit. rewrite Hm. reflexivity. Qed.

(** The hook is unmounted while its channel is open: the cleanup starts
    the closing handshake, but the close event that follows still runs
    the close handler, which schedules a retry that nothing clears; when
    it fires a new socket is created, and when that one opens the
    unmounted hook subscribes again and the store says connected. *)
Theorem unmount_while_open_reconnects (h : Hook) (ws : nat) (now : Z) :
  mounted h = true ->
  wsRef h = Some ws ->
  readyStateOf h ws = Some OPEN ->
  (reconnectAttempts h < maxReconnectAttempts)%nat ->
  validUrl (url h) = true ->
  let h1 := step h Unmount in
  let h2 := step h1 (WsClose ws) in
  let h3 := step h2 (TimerFire (nextTimer h) now) in
  let h4 := step h3 (WsOpen (length (sockets h))) in
  mounted h4 = false /\
  readyStateOf h1 ws = Some CLOSING /\
  wsRef h1 = None /\
  timers h2 !! nextTimer h = Some (ReconnectTimeout reconnectDelay) /\
  wsRef h3 = Some (length (sockets h)) /\
  sockets h4 !! length (sockets h) =
    Some {| readyState := OPEN; sent := [subscribeMessage] |} /\
  isConnected (store h4) = true.
Proof.
  intros Hm Hws Hr Hlt Hurl.
  destruct h as [u m s c w r a hb sk tm nt]. cbn in Hm, Hws, Hr, Hlt, Hurl. subst m w.
  unfold readyStateOf in Hr. cbn in Hr.
  destruct (sk !! ws) as [[rs snt]|] eqn:Hsk; [|discriminate]. cbn in Hr.
  injection Hr as ->.
  apply Nat.ltb_lt in Hlt.
  cbn zeta. cbn [nextTimer sockets].
  set (h1 := step _ Unmount).
  assert (E1 : exists tm1,
    h1 = {| url := u; mounted := false;
            store := setConnected false s;
            connectionState := c; wsRef := None; reconnectTimeoutRef := r;
            reconnectAttempts := a; heartbeatInterval := None;
            sockets := alter close ws sk; timers := tm1; nextTimer := nt |}).
  { subst h1. unfold step. cbn [dispatch mounted].
    rewrite commit_unmounted by (destruct hb, r; reflexivity).
    destruct hb, r; cbn; eexists; reflexivity. }
  destruct E1 as [tm1 E1]. rewrite E1. clearbody h1. clear E1 h1.
  assert (Hc : alter close ws sk !! ws = Some {| readyState := CLOSING; sent := snt |}).
  { rewrite list_lookup_alter_eq, Hsk. reflexivity. }
  set (h2 := step _ (WsClose ws)).
  assert (E2 :
    h2 = {| url := u; mounted := false;
            store := setConnected false (setConnected false s);
            connectionState := c; wsRef := None; reconnectTimeoutRef := Some nt;
            reconnectAttempts := S a; heartbeatInterval := None;
            sockets := alter (setReadyState CLOSED) ws (alter close ws sk);
            timers := <[nt := ReconnectTimeout reconnectDelay]> tm1;
            nextTimer := S nt |}).
  { subst h2. unfold step. cbn [dispatch]. unfold readyStateOf. cbn [sockets].
    rewrite Hc. cbn [fmap option_fmap option_map readyState].
    rewrite commit_unmounted
      by (unfold onclose; cbn -[Nat.ltb maxReconnectAttempts]; rewrite Hlt; reflexivity).
    unfold onclose. cbn -[Nat.ltb maxReconnectAttempts]. rewrite Hlt. reflexivity. }
  set (h3 := step h2 (TimerFire nt now)).
  assert (E3 :
    h3 = {| url := u; mounted := false;
            store := setConnected false (setConnected false s);
            connectionState := c; wsRef := Some (length sk);
            reconnectTimeoutRef := Some nt;
            reconnectAttempts := S a; heartbeatInterval := None;
            sockets := alter (setReadyState CLOSED) ws (alter close ws sk) ++ [newSocket];
            timers := delete nt (<[nt := ReconnectTimeout reconnectDelay]> tm1);
            nextTimer := S nt |}).
  { subst h3. rewrite E2. unfold step. cbn [dispatch timers].
    rewrite lookup_insert_eq.
    rewrite commit_unmounted by (unfold connect; cbn; rewrite Hurl; reflexivity).
    unfold connect. cbn. rewrite Hurl. cbn. rewrite !length_alter. reflexivity. }
  set (h4 := step h3 (WsOpen (length sk))).
  assert (Hn : (alter (setReadyState CLOSED) ws (alter close ws sk) ++ [newSocket])
                 !! length sk = Some newSocket).
  { rewrite lookup_app_r by (rewrite !length_alter; lia).
    rewrite !length_alter, Nat.sub_diag. reflexivity. }
  assert (E4 : mounted h4 = false /\
               sockets h4 !! length sk =
                 Some {| readyState := OPEN; sent := [subscribeMessage] |} /\
               isConnected (store h4) = true).
  { subst h4. rewrite E3. unfold step. cbn [dispatch]. unfold readyStateOf. cbn [sockets].
    rewrite Hn. cbn [fmap option_fmap option_map readyState newSocket].
    rewrite commit_unmounted by reflexivity.
    cbn. split; [reflexivity|]. split; [|reflexivity].
    rewrite list_alter_alter_eq, list_lookup_alter_eq, Hn. reflexivity. }
  destruct E4 as (F1 & F2 & F3).
  split; [exact F1|]. split; [unfold readyStateOf; cbn; rewrite Hc; reflexivity|].
  split; [reflexivity|]. split; [rewrite E2; cbn; apply lookup_insert_eq|].
  split; [rewrite E3; reflexivity|]. split; [exact F2|exact F3].
Qed.

Lemma unmount_while_open_reconnects_witness :
  let h := run (mount serverUrl initialState) [WsOpen 0] in
  let h1 := step h Unmount in
  let h2 := step h1 (WsClose 0) in
  let h3 := step h2 (TimerFire (nextTimer h) 3000) in
  let h4 := step h3 (WsOpen (length (sockets h))) in
  mounted h4 = false /\
  readyStateOf h1 0 = Some CLOSING /\
  wsRef h1 = None /\
  timers h2 !! nextTimer h = Some (ReconnectTimeout reconnectDelay) /\
  wsRef h3 = Some (length (sockets h)) /\
  sockets h4 !! length (sockets h) =
    Some {| readyState := OPEN; sent := [subscribeMessage] |} /\
  isConnected (store h4) = true.
Proof.
  apply (unmount_while_open_reconnects
           (run (mount serverUrl initialState) [WsOpen 0]) 0 3000);
    solve [reflexivity | vm_compute; lia].
Defined.

Lemma rejected_step h e : rejected h -> rejected (step h e).
Proof.
  destruct h as [u m s c w r a hb sk tm nt].
  intros (Hurl & Hsk & Htm & Hhb & Hc & Herr). cbn in Hurl, Hsk, Htm, Hhb, Hc, Herr.
  subst sk tm hb.
  assert (Hc' : m = false \/ (m = true /\ c = disconnected)).
  { destruct m; [right; split; [reflexivity|apply Hc; reflexivity]|left; reflexivity]. }
  clear Hc. unfold rejected.
  destruct Hc' as [-> | [-> ->]];
    destruct e as [ws|ws frame|ws|ws|t now| | |];
    unfold step, dispatch, readyStateOf, connect, disconnect, setConnectionState,
      clearHeartbeat, isOpen, commit, heartbeatEffect;
    destruct r as [t0|], w as [ws0|];
    cbn -[validUrl]; rewrite ?lookup_nil, ?Hurl, ?lookup_empty;
    cbn -[validUrl]; rewrite ?delete_empty;
    repeat split; try assumption; try reflexivity; intros; congruence.
Qed.

(** A hook whose URL the [WebSocket] constructor rejects never has a
    socket and never schedules a retry, whatever happens afterwards,
    further calls of [connect()] included; the store keeps the error text
    of the failed creation and the hook, while mounted, stays
    disconnected. *)
Theorem rejected_url_never_connects (u : Url) (s : SimulationState) (es : list Event) :
  validUrl u = false ->
  rejected (run (mount u s) es).
Proof.
  intros Hurl.
  assert (H0 : rejected (mount u s)).
  { unfold rejected, mount, step, dispatch, connect, setConnectionState, isOpen, init.
    cbn -[validUrl]. rewrite Hurl. cbn -[validUrl]. rewrite Hurl. repeat split. }
  revert H0. generalize (mount u s). unfold run.
  induction es as [|e es IH]; intros h H; [exact H|].
  cbn [fold_left]. apply IH, rejected_step, H.
Qed.

Lemma rejected_url_never_connects_witness :
  rejected (run (mount (Refused "ftp://localhost:8000/ws") initialState)
              [CallConnect; WsClose 0; TimerFire 1 3000; CallDisconnect; CallConnect]).
Proof.
  apply (rejected_url_never_connects (Refused "ftp://localhost:8000/ws") initialState
           [CallConnect; WsClose 0; TimerFire 1 3000; CallDisconnect; CallConnect]).
  reflexivity.
Defined.

End ChannelEdges.
